(** * microschc: the UDP header parser and the UDP compute functions

    Shallow embedding of [src/microschc/protocol/udp.py] (UDPParser.parse,
    _compute_length, _compute_checksum) together with the pieces of the
    repository it relies on that are not part of the sources at hand
    (the [Buffer] class of [microschc.binary.buffer], the IPv4/IPv6 field
    identifiers), modelled from the spec. *)

From Stdlib Require Import ZArith List String Bool Lia.
Import ListNotations.
Local Open Scope string_scope.
Local Open Scope Z_scope.
Local Open Scope list_scope.

(** ** Python errors raised by the modelled code *)

Inductive Error :=
| ParserError (buffer_length : Z)   (** [microschc.parser.ParserError] *)
| BufferError                       (** out-of-bounds slice or chunk request *)
| IndexError                        (** list index out of range *)
| StopIteration                     (** [next] on an exhausted iterator *)
| OverflowError                     (** [int.to_bytes] on a too large value *)
| UnboundLocalError.                (** use of a never assigned local *)

Inductive Result (A : Type) :=
| Ok (a : A)
| Err (e : Error).
Arguments Ok {A} a.
Arguments Err {A} e.

Definition bind {A B} (m : Result A) (k : A -> Result B) : Result B :=
  match m with
  | Ok a => k a
  | Err e => Err e
  end.

Notation "'let*' x ':=' m 'in' k" := (bind m (fun x => k))
  (at level 200, x name, m at level 100, k at level 200).

(** ** Python integers to bytes *)

(** [bytes_be n v] is the big-endian list of the [n] low-order octets of [v]. *)
Fixpoint bytes_be (n : nat) (v : Z) : list Z :=
  match n with
  | O => []
  | S n' => bytes_be n' (v / 256) ++ [v mod 256]
  end.

(** [int.to_bytes(k, 'big')]: raises OverflowError when [v] does not fit. *)
Definition to_bytes (v : Z) (k : nat) : Result (list Z) :=
  if (0 <=? v) && (v <? 2 ^ (8 * Z.of_nat k)) then Ok (bytes_be k v)
  else Err OverflowError.

(** [int.from_bytes(content, 'big')]. *)
Definition bytes_value (content : list Z) : Z :=
  fold_left (fun acc b => acc * 256 + b) content 0.

(** ** Buffer *)

(** Modelled from the spec: the [Buffer] class of [microschc.binary.buffer]
    (not part of the sources). A buffer is an MSB-first sequence of
    [length] bits, kept as its unsigned big-endian [value]; equality compares
    the bits and the bit length only, so the padding side is not kept. *)
Module Buffer.

Record t := mk { value : Z; length : Z }.

Inductive Padding := LEFT | RIGHT.

(** [Buffer(content=..., length=..., padding=...)]: with LEFT padding
    (the default) the significant bits are the trailing [length] bits of the
    content; with RIGHT padding they are its leading [length] bits. *)
Definition of_bytes (content : list Z) (len : Z) (padding : Padding) : t :=
  let v := bytes_value content in
  match padding with
  | LEFT => mk (v mod 2 ^ len) len
  | RIGHT => mk ((v / 2 ^ (8 * Z.of_nat (List.length content) - len)) mod 2 ^ len) len
  end.

(** the bits [a, e) of [b], no bounds check *)
Definition sub (b : t) (a e : Z) : t :=
  mk ((value b / 2 ^ (length b - e)) mod 2 ^ (e - a)) (e - a).

(** [b[a:e]]: a bounds error when the range is not inside the buffer. *)
Definition slice (b : t) (a e : Z) : Result t :=
  if (0 <=? a) && (a <=? e) && (e <=? length b) then Ok (sub b a e)
  else Err BufferError.

(** [b[a:]] *)
Definition slice_from (b : t) (a : Z) : Result t := slice b a (length b).

(** [b1 + b2]: the bits of [b1] followed by the bits of [b2]. *)
Definition concat (b1 b2 : t) : t :=
  mk (value b1 * 2 ^ length b2 + value b2) (length b1 + length b2).

(** a short buffer zero-extended on the right to [n] bits *)
Definition extend (b : t) (n : Z) : t :=
  mk (value b * 2 ^ (n - length b)) n.

(** [b.chunks(length=n, padding=pad)]: the successive [n]-bit sub-buffers;
    a short final chunk is zero-extended when [pad] holds, and is a bounds
    error otherwise. *)
Definition chunks (b : t) (n : Z) (pad : bool) : Result (list t) :=
  let q := length b / n in
  let r := length b mod n in
  let full := map (fun i => sub b (Z.of_nat i * n) (Z.of_nat i * n + n))
                  (seq 0 (Z.to_nat q)) in
  if r =? 0 then Ok full
  else if pad then Ok (full ++ [extend (sub b (q * n) (length b)) n])
  else Err BufferError.

End Buffer.


(** ** UDP header parser *)

Definition UDP_HEADER_ID : string := "UDP".

(** [class UDPFields(str, Enum)] *)
Module UDPFields.
Definition SOURCE_PORT : string := UDP_HEADER_ID ++ ":Source Port".
Definition DESTINATION_PORT : string := UDP_HEADER_ID ++ ":Destination Port".
Definition LENGTH : string := UDP_HEADER_ID ++ ":Length".
Definition CHECKSUM : string := UDP_HEADER_ID ++ ":Checksum".
End UDPFields.

(** [FieldDescriptor] and [HeaderDescriptor] of [microschc.rfc8724] *)
Record FieldDescriptor := mkFieldDescriptor {
  fd_id : string; fd_position : Z; fd_value : Buffer.t }.

Record HeaderDescriptor := mkHeaderDescriptor {
  hd_id : string; hd_length : Z; hd_fields : list FieldDescriptor }.

(** [UDPParser.parse] *)
Definition parse (buffer : Buffer.t) : Result HeaderDescriptor :=
  if Buffer.length buffer <? 64 then Err (ParserError (Buffer.length buffer))
  else
    let* source_port := Buffer.slice buffer 0 16 in
    let* destination_port := Buffer.slice buffer 16 32 in
    let* length := Buffer.slice buffer 32 48 in
    let* checksum := Buffer.slice buffer 48 64 in
    Ok (mkHeaderDescriptor UDP_HEADER_ID 64
          [ mkFieldDescriptor UDPFields.SOURCE_PORT 0 source_port;
            mkFieldDescriptor UDPFields.DESTINATION_PORT 0 destination_port;
            mkFieldDescriptor UDPFields.LENGTH 0 length;
            mkFieldDescriptor UDPFields.CHECKSUM 0 checksum ]).

(** the header descriptor [parse] builds from a long enough buffer *)
Definition parsed_header (buffer : Buffer.t) : HeaderDescriptor :=
  mkHeaderDescriptor UDP_HEADER_ID 64
    [ mkFieldDescriptor UDPFields.SOURCE_PORT 0 (Buffer.sub buffer 0 16);
      mkFieldDescriptor UDPFields.DESTINATION_PORT 0 (Buffer.sub buffer 16 32);
      mkFieldDescriptor UDPFields.LENGTH 0 (Buffer.sub buffer 32 48);
      mkFieldDescriptor UDPFields.CHECKSUM 0 (Buffer.sub buffer 48 64) ].

(** ** Compute functions *)

(** [length // 8 if length % 8 == 0 else length // 8 + 1] *)
Definition octets_of_bits (length : Z) : Z :=
  if length mod 8 =? 0 then length / 8 else length / 8 + 1.

(** [_compute_length(packet, field_cursor, _, __)] *)
Definition _compute_length (packet : Buffer.t) (field_cursor : Z) : Result Buffer.t :=
  let* udp_header_and_payload := Buffer.slice_from packet (field_cursor - 32) in
  let length := octets_of_bits (Buffer.length udp_header_and_payload) in
  let* content := to_bytes length 2 in
  Ok (Buffer.of_bytes content 16 Buffer.LEFT).

(** ** Python helpers used by [_compute_checksum] *)

(** [l[i]], negative indices counting from the end *)
Definition py_index {A} (l : list A) (i : Z) : Result A :=
  let n := Z.of_nat (List.length l) in
  let j := if i <? 0 then i + n else i in
  if (0 <=? j) && (j <? n) then
    match nth_error l (Z.to_nat j) with
    | Some x => Ok x
    | None => Err IndexError
    end
  else Err IndexError.

(** [needle in hay] for strings *)
Fixpoint contains (needle hay : string) : bool :=
  prefix needle hay ||
  match hay with
  | EmptyString => false
  | String _ hay' => contains needle hay'
  end.

(** normalised start of the slice [l[p:0:-1]] of a list of length [n] *)
Definition rev_slice_start (n p : Z) : Z :=
  if p <? 0 then (if p + n <? 0 then -1 else p + n)
  else if n <=? p then n - 1 else p.

(** [l[p:0:-1]]: the elements at indices [s, s-1, ..., 1] *)
Definition rev_slice_to_1 {A} (l : list A) (p : Z) : list A :=
  let s := rev_slice_start (Z.of_nat (List.length l)) p in
  rev (skipn 1 (firstn (Z.to_nat (s + 1)) l)).

(** [next(offset for offset, x in enumerate(l) if x == target)] *)
Fixpoint next_offset (l : list string) (target : string) : Result Z :=
  match l with
  | [] => Err StopIteration
  | x :: l' =>
      if String.eqb x target then Ok 0
      else let* k := next_offset l' target in Ok (k + 1)
  end.

(** ** [_compute_checksum] *)

Section Checksum.

(** Modelled from the spec: the identifiers of [microschc.protocol.ipv4] and
    [microschc.protocol.ipv6] (not part of the sources): the header ids used
    as namespace markers of the field ids, and the ids of the source address
    fields. *)
Variables IPv6_HEADER_ID IPV4_HEADER_ID : string.
Variables IPv6_SRC_ADDRESS IPv4_SRC_ADDRESS : string.

(** the constant [Buffer(content=b'\x00\x11', length=16)] *)
Definition pseudo_header_protocol_id : Buffer.t := Buffer.of_bytes [0; 17] 16 Buffer.LEFT.

(** the [if IPv6_HEADER_ID in ... elif IPV4_HEADER_ID in ...] block of
    [_compute_checksum] (lines 154-206), building [pseudo_header]; a run
    through neither branch leaves it unbound. *)
Definition build_pseudo_header (fields_ids : list string) (fields_values : list Buffer.t)
    (preceding_protocol_last_position : Z) (preceding_protocol_last_field : string)
    (udp_total_length : Z) : Result Buffer.t :=
  if contains IPv6_HEADER_ID preceding_protocol_last_field then
    let* ipv6_source_address_offset :=
      next_offset (rev_slice_to_1 fields_ids preceding_protocol_last_position) IPv6_SRC_ADDRESS in
    let ipv6_source_address_position := preceding_protocol_last_position - ipv6_source_address_offset in
    let* ipv6_source_address := py_index fields_values ipv6_source_address_position in
    let* ipv6_destination_address := py_index fields_values (ipv6_source_address_position + 1) in
    let* length_content := to_bytes udp_total_length 4 in
    let pseudo_header_length := Buffer.of_bytes length_content 16 Buffer.LEFT in
    Ok (Buffer.concat (Buffer.concat (Buffer.concat ipv6_source_address ipv6_destination_address)
                                     pseudo_header_protocol_id) pseudo_header_length)
  else if contains IPV4_HEADER_ID preceding_protocol_last_field then
    let* ipv4_source_address_offset :=
      next_offset (rev_slice_to_1 fields_ids preceding_protocol_last_position) IPv4_SRC_ADDRESS in
    let ipv4_source_address_position := preceding_protocol_last_position - ipv4_source_address_offset in
    let* ipv4_source_address := py_index fields_values ipv4_source_address_position in
    let* ipv4_destination_address := py_index fields_values (ipv4_source_address_position + 1) in
    let* length_content := to_bytes udp_total_length 2 in
    let pseudo_header_length := Buffer.of_bytes length_content 16 Buffer.LEFT in
    Ok (Buffer.concat (Buffer.concat (Buffer.concat ipv4_source_address ipv4_destination_address)
                                     pseudo_header_protocol_id) pseudo_header_length)
  else Err UnboundLocalError.

(** one step of the summation loops:
    [s += chunk; carry = s >> 16; s = (s + carry) & 0xffff] *)
Definition add_chunk (s : Z) (chunk : Buffer.t) : Z :=
  let s := s + Buffer.value chunk in
  let carry := Z.shiftr s 16 in
  Z.land (s + carry) 0xffff.

(** lines 141-206 of [_compute_checksum]: the UDP header and payload
    [packet[field_cursor-48:]] and the pseudo-header *)
Definition checksum_inputs (packet : Buffer.t) (field_cursor : Z)
    (decompressed_fields : list (string * Buffer.t)) (rule_field_position : Z)
    : Result (Buffer.t * Buffer.t) :=
  let fields_ids := map fst decompressed_fields in
  let fields_values := map snd decompressed_fields in
  let udp_checksum_position := rule_field_position in
  let preceding_protocol_last_position := udp_checksum_position - 4 in
  let* preceding_protocol_last_field := py_index fields_ids preceding_protocol_last_position in
  let* udp_header_and_payload := Buffer.slice_from packet (field_cursor - 48) in
  let udp_total_length := octets_of_bits (Buffer.length udp_header_and_payload) in
  let* pseudo_header := build_pseudo_header fields_ids fields_values
      preceding_protocol_last_position preceding_protocol_last_field udp_total_length in
  Ok (udp_header_and_payload, pseudo_header).

(** [_compute_checksum(packet, field_cursor, decompressed_fields, rule_field_position)] *)
Definition _compute_checksum (packet : Buffer.t) (field_cursor : Z)
    (decompressed_fields : list (string * Buffer.t)) (rule_field_position : Z) : Result Buffer.t :=
  let* inputs := checksum_inputs packet field_cursor decompressed_fields rule_field_position in
  let '(udp_header_and_payload, pseudo_header) := inputs in
  let* pseudo_header_chunks := Buffer.chunks pseudo_header 16 false in
  let pseudo_header_checksum := fold_left add_chunk pseudo_header_chunks 0 in
  let* udp_chunks := Buffer.chunks udp_header_and_payload 16 true in
  let udp_header_and_payload_checksum := fold_left add_chunk udp_chunks 0 in
  let checksum_value := pseudo_header_checksum + udp_header_and_payload_checksum in
  let carry := Z.shiftr checksum_value 16 in
  let checksum_value := Z.land (checksum_value + carry) 0xffff in
  let checksum_value := Z.land (Z.lnot checksum_value) 0xffff in
  let checksum_value := if checksum_value =? 0 then 0xffff else checksum_value in
  let* content := to_bytes checksum_value 2 in
  Ok (Buffer.of_bytes content 16 Buffer.LEFT).

End Checksum.

(** ** The checksum and the dispatch as the spec words them

    Second definitions, following the spec's sentences rather than the
    source, to be compared with the embedding above. *)

(** 16-bit addition with the end-around carry folded back in *)
Definition end_around_carry (x : Z) : Z := x mod 2 ^ 16 + x / 2 ^ 16.

(** one's complement sum of 16-bit words, folding after each addition *)
Definition ones_complement_sum (words : list Z) : Z :=
  fold_left (fun acc w => end_around_carry (acc + w)) words 0.

(** the successive 16-bit big-endian words of a buffer *)
Definition words16 (b : Buffer.t) : list Z :=
  map (fun i => (Buffer.value b / 2 ^ (Buffer.length b - 16 * (Z.of_nat i + 1))) mod 2 ^ 16)
      (seq 0 (Z.to_nat (Buffer.length b / 16))).

(** a buffer zero-padded at its end to an even number of octets *)
Definition pad_even_octets (b : Buffer.t) : Buffer.t :=
  let r := Buffer.length b mod 16 in
  if r =? 0 then b
  else Buffer.mk (Buffer.value b * 2 ^ (16 - r)) (Buffer.length b + 16 - r).

(** sum the pseudo-header words, sum the padded UDP header and payload
    words, combine with a last fold, take the 16-bit one's complement *)
Definition checksum_spec (pseudo_header udp_header_and_payload : Buffer.t) : Z :=
  Z.ones 16 - end_around_carry
    (ones_complement_sum (words16 pseudo_header) +
     ones_complement_sum (words16 (pad_even_octets udp_header_and_payload))).

(** RFC768's escape: a zero checksum is transmitted as all ones *)
Definition zero_escape (c : Z) : Z := if c =? 0 then 0xffff else c.

(** the last field before the rule position [pos] whose id belongs to the
    IPv6 or the IPv4 namespace, found by a backward scan *)
Definition enclosing_network_layer_field (IPv6_HEADER_ID IPV4_HEADER_ID : string)
    (decompressed_fields : list (string * Buffer.t)) (pos : Z) : option string :=
  find (fun id => contains IPv6_HEADER_ID id || contains IPV4_HEADER_ID id)
       (rev (firstn (Z.to_nat pos) (map fst decompressed_fields))).

(** ** Test vectors *)

(** Modelled from the spec: the values of the identifiers of
    [microschc.protocol.ipv4] and [microschc.protocol.ipv6], following the
    [<HEADER_ID>:<Field name>] pattern of [UDPFields]. *)
Module Ids.
Definition IPv6_HEADER_ID : string := "IPv6".
Definition IPV4_HEADER_ID : string := "IPv4".
Definition IPv6_SRC_ADDRESS : string := "IPv6:Source Address".
Definition IPv4_SRC_ADDRESS : string := "IPv4:Source Address".
End Ids.

Definition compute_checksum_ids :=
  _compute_checksum Ids.IPv6_HEADER_ID Ids.IPV4_HEADER_ID Ids.IPv6_SRC_ADDRESS Ids.IPv4_SRC_ADDRESS.

Definition checksum_inputs_ids :=
  checksum_inputs Ids.IPv6_HEADER_ID Ids.IPV4_HEADER_ID Ids.IPv6_SRC_ADDRESS Ids.IPv4_SRC_ADDRESS.

(** [valid_stack_packet] of [tests/decompressor/test_decompressor.py]: an
    IPv6 header (40 octets), a UDP header (8 octets) and a CoAP message *)
Definition valid_stack_packet : list Z := [
  0x60; 0x00; 0xef; 0x2d; 0x00; 0x68; 0x11; 0x40; 0x20; 0x01; 0x0d; 0xb8; 0x00;
  0x0a; 0x00; 0x00; 0x00; 0x00; 0x00; 0x00; 0x00; 0x00; 0x00; 0x02; 0x20; 0x01;
  0x0d; 0xb8; 0x00; 0x0a; 0x00; 0x00; 0x00; 0x00; 0x00; 0x00; 0x00; 0x00; 0x00;
  0x20; 0xd1; 0x00; 0x16; 0x33; 0x00; 0x68; 0x5c; 0x21; 0x68; 0x45; 0x22; 0xf6;
  0xb8; 0x30; 0x0e; 0xfe; 0xe6; 0x62; 0x91; 0x22; 0xc1; 0x6e; 0xff; 0x5b; 0x7b;
  0x22; 0x62; 0x6e; 0x22; 0x3a; 0x22; 0x2f; 0x36; 0x2f; 0x22; 0x2c; 0x22; 0x6e;
  0x22; 0x3a; 0x22; 0x30; 0x2f; 0x30; 0x22; 0x2c; 0x22; 0x76; 0x22; 0x3a; 0x35;
  0x34; 0x2e; 0x30; 0x7d; 0x2c; 0x7b; 0x22; 0x6e; 0x22; 0x3a; 0x22; 0x30; 0x2f;
  0x31; 0x22; 0x2c; 0x22; 0x76; 0x22; 0x3a; 0x34; 0x38; 0x2e; 0x30; 0x7d; 0x2c;
  0x7b; 0x22; 0x6e; 0x22; 0x3a; 0x22; 0x30; 0x2f; 0x35; 0x22; 0x2c; 0x22; 0x76;
  0x22; 0x3a; 0x31; 0x36; 0x36; 0x36; 0x32; 0x36; 0x33; 0x33; 0x33; 0x39; 0x7d;
  0x5d ].

Definition fixture_packet : Buffer.t :=
  Buffer.of_bytes valid_stack_packet (8 * 144) Buffer.RIGHT.

(** the [decompressed_fields] of the fixture rule up to the UDP length
    field, the UDP checksum being the field at rule position 11 and starting
    at bit 368 of the packet *)
Definition fixture_fields : list (string * Buffer.t) :=
  [ ("IPv6:Version", Buffer.mk 6 4); ("IPv6:Traffic Class", Buffer.mk 0 8);
    ("IPv6:Flow Label", Buffer.mk 0xef2d 20); ("IPv6:Payload Length", Buffer.mk 104 16);
    ("IPv6:Next Header", Buffer.mk 17 8); ("IPv6:Hop Limit", Buffer.mk 64 8);
    (Ids.IPv6_SRC_ADDRESS, Buffer.sub fixture_packet 64 192);
    ("IPv6:Destination Address", Buffer.sub fixture_packet 192 320);
    (UDPFields.SOURCE_PORT, Buffer.sub fixture_packet 320 336);
    (UDPFields.DESTINATION_PORT, Buffer.sub fixture_packet 336 352);
    (UDPFields.LENGTH, Buffer.sub fixture_packet 352 368) ].

Definition fixture_udp : Buffer.t := Buffer.sub fixture_packet 320 1152.

Definition fixture_pseudo_header : Buffer.t :=
  Buffer.concat (Buffer.concat (Buffer.concat (Buffer.sub fixture_packet 64 192)
    (Buffer.sub fixture_packet 192 320)) (Buffer.mk 17 16)) (Buffer.mk 104 16).

(** a context where a routing-header field sits between the IPv6 addresses
    and the UDP fields, the UDP checksum being at rule position 6 *)
Definition routed_fields : list (string * Buffer.t) :=
  [ (Ids.IPv6_SRC_ADDRESS, Buffer.sub fixture_packet 64 192);
    ("IPv6:Destination Address", Buffer.sub fixture_packet 192 320);
    ("SRH:Segments Left", Buffer.mk 0 8);
    (UDPFields.SOURCE_PORT, Buffer.sub fixture_packet 320 336);
    (UDPFields.DESTINATION_PORT, Buffer.sub fixture_packet 336 352);
    (UDPFields.LENGTH, Buffer.sub fixture_packet 352 368) ].

(** the IPv6 pseudo-header in the RFC 8200 layout:
    [source ∥ destination ∥ length(32) ∥ zero(24) ∥ next-header(8)] *)
Definition rfc8200_pseudo_header (src dst : Buffer.t) (udp_length : Z) : Buffer.t :=
  Buffer.concat (Buffer.concat (Buffer.concat (Buffer.concat src dst)
    (Buffer.mk udp_length 32)) (Buffer.mk 0 24)) (Buffer.mk 17 8).

(** ** Definitions for the further properties *)

(** the invariant of every [Buffer]: a nonnegative bit length and a value
    that fits in it *)
Definition well_formed (b : Buffer.t) : bool :=
  (0 <=? Buffer.length b) && (0 <=? Buffer.value b) && (Buffer.value b <? 2 ^ Buffer.length b).

(** the integer sum of a list of words *)
Definition sum_words (ws : list Z) : Z := fold_right Z.add 0 ws.

(** the 16-bit one's complement representative of a nonnegative integer:
    zero for zero, otherwise the value in [1, 0xffff] congruent to it modulo
    [0xffff] *)
Definition ones_rep (x : Z) : Z := if x =? 0 then 0 else (x - 1) mod 0xffff + 1.

(** the fixture packet cut around its UDP checksum field (bits [368, 384)) *)
Definition fixture_before_checksum : Buffer.t := Buffer.sub fixture_packet 0 368.
Definition fixture_after_checksum : Buffer.t := Buffer.sub fixture_packet 384 1152.

(** a context whose IPv6 source address is the first decompressed field, the
    UDP checksum being at rule position 5 *)
Definition leading_source_fields : list (string * Buffer.t) :=
  [ (Ids.IPv6_SRC_ADDRESS, Buffer.sub fixture_packet 64 192);
    ("IPv6:Destination Address", Buffer.sub fixture_packet 192 320);
    (UDPFields.SOURCE_PORT, Buffer.sub fixture_packet 320 336);
    (UDPFields.DESTINATION_PORT, Buffer.sub fixture_packet 336 352);
    (UDPFields.LENGTH, Buffer.sub fixture_packet 352 368) ].

(** * Properties *)

(** ** Buffer and byte lemmas *)

Lemma bytes_value_app_one (l : list Z) (x : Z) :
  bytes_value (l ++ [x]) = bytes_value l * 256 + x.
Proof. unfold bytes_value. rewrite fold_left_app. reflexivity. Qed.

Lemma bytes_value_bytes_be (k : nat) (v : Z) :
  bytes_value (bytes_be k v) = v mod 2 ^ (8 * Z.of_nat k).
Proof.
  revert v. induction k as [|k IH]; intros v.
  - simpl. rewrite Z.mod_1_r. reflexivity.
  - cbn [bytes_be]. rewrite bytes_value_app_one, IH.
    replace (8 * Z.of_nat (S k)) with (8 + 8 * Z.of_nat k) by lia.
    rewrite Z.pow_add_r by lia. change (2 ^ 8) with 256.
    rewrite Z.rem_mul_r by (try lia; apply Z.pow_pos_nonneg; lia). lia.
Qed.

(** [Buffer(content=v.to_bytes(k, 'big'), length=16)] is the 16-bit [v]. *)
Lemma to_bytes_buffer16 (v : Z) (k : nat) :
  (2 <= k)%nat -> 0 <= v < 2 ^ (8 * Z.of_nat k) ->
  exists content, to_bytes v k = Ok content /\
    Buffer.of_bytes content 16 Buffer.LEFT = Buffer.mk (v mod 2 ^ 16) 16.
Proof.
  intros Hk Hv. unfold to_bytes.
  replace ((0 <=? v) && (v <? 2 ^ (8 * Z.of_nat k)))%bool with true
    by (symmetry; apply andb_true_intro; split; [apply Z.leb_le | apply Z.ltb_lt]; lia).
  eexists; split; [reflexivity|].
  unfold Buffer.of_bytes. rewrite bytes_value_bytes_be, (Z.mod_small v (2 ^ (8 * Z.of_nat k))) by lia.
  reflexivity.
Qed.


(** Slicing a prefix and then slicing inside it reads the same bits. *)
Lemma sub_sub (b : Buffer.t) (a e m : Z) :
  0 <= a <= e -> e <= m <= Buffer.length b ->
  Buffer.sub (Buffer.sub b 0 m) a e = Buffer.sub b a e.
Proof.
  intros Hae Hem. destruct b as [v L]. cbn in Hem. unfold Buffer.sub; cbn [Buffer.value Buffer.length].
  f_equal. replace (m - 0) with m by lia.
  apply Z.bits_inj'. intros i Hi.
  rewrite !Z.testbit_mod_pow2 by lia.
  destruct (i <? e - a) eqn:Hie; [|reflexivity]. apply Z.ltb_lt in Hie.
  rewrite !Z.div_pow2_bits by lia. rewrite Z.testbit_mod_pow2 by lia.
  replace (i + (m - e) <? m) with true by (symmetry; apply Z.ltb_lt; lia).
  rewrite Z.div_pow2_bits by lia. cbn. f_equal. lia.
Qed.

(** ** The parser *)

Lemma slice_in_bounds (b : Buffer.t) (a e : Z) :
  0 <= a <= e -> e <= Buffer.length b -> Buffer.slice b a e = Ok (Buffer.sub b a e).
Proof.
  intros H1 H2. unfold Buffer.slice.
  replace ((0 <=? a) && (a <=? e) && (e <=? Buffer.length b))%bool with true; [reflexivity|].
  symmetry. repeat rewrite andb_true_iff. repeat split; apply Z.leb_le; lia.
Qed.

Lemma parse_long (buffer : Buffer.t) :
  64 <= Buffer.length buffer -> parse buffer = Ok (parsed_header buffer).
Proof.
  intros H. unfold parse.
  replace (Buffer.length buffer <? 64) with false by (symmetry; apply Z.ltb_ge; lia).
  rewrite !slice_in_bounds by lia. reflexivity.
Qed.

Lemma parse_short (buffer : Buffer.t) :
  Buffer.length buffer < 64 -> parse buffer = Err (ParserError (Buffer.length buffer)).
Proof.
  intros H. unfold parse.
  replace (Buffer.length buffer <? 64) with true by (symmetry; apply Z.ltb_lt; lia).
  reflexivity.
Qed.

(** ** Claims on [UDPParser.parse] *)

(** C6: [parse] raises a ParserError exactly when the buffer is shorter than
    64 bits; the failing run returns no header descriptor at all, and a long
    enough buffer never fails. *)
Theorem parse_error_iff_short (buffer : Buffer.t) :
  ((exists e, parse buffer = Err e) <-> Buffer.length buffer < 64) /\
  (forall e, parse buffer = Err e -> e = ParserError (Buffer.length buffer)).
Proof.
  destruct (Z_lt_le_dec (Buffer.length buffer) 64) as [Hs|Hl].
  - rewrite (parse_short buffer Hs). split.
    + split; [intros _; exact Hs | intros _; eexists; reflexivity].
    + intros e He. injection He. intros <-. reflexivity.
  - rewrite (parse_long buffer Hl). split.
    + split; [intros [e He]; discriminate He | lia].
    + intros e He. discriminate He.
Qed.

Lemma parse_error_iff_short_witness :
  ((exists e, parse (Buffer.mk 0xd100 32) = Err e) <-> Buffer.length (Buffer.mk 0xd100 32) < 64) /\
  parse (Buffer.mk 0xd100 32) = Err (ParserError 32).
Proof.
  split; [apply (proj1 (parse_error_iff_short (Buffer.mk 0xd100 32)))|].
  vm_compute. reflexivity.
Defined.

(** C7: on a buffer of at least 64 bits, [parse] returns the header [UDP] of
    length 64 with the four 16-bit fields source port, destination port,
    length and checksum, read from bits [0,16), [16,32), [32,48), [48,64),
    each at position 0. *)
Theorem parse_fields (buffer : Buffer.t) :
  64 <= Buffer.length buffer ->
  parse buffer = Ok (mkHeaderDescriptor "UDP" 64
    [ mkFieldDescriptor "UDP:Source Port" 0 (Buffer.sub buffer 0 16);
      mkFieldDescriptor "UDP:Destination Port" 0 (Buffer.sub buffer 16 32);
      mkFieldDescriptor "UDP:Length" 0 (Buffer.sub buffer 32 48);
      mkFieldDescriptor "UDP:Checksum" 0 (Buffer.sub buffer 48 64) ]) /\
  Forall (fun f => Buffer.length (fd_value f) = 16)
    (hd_fields (parsed_header buffer)).
Proof.
  intros H. split.
  - rewrite (parse_long buffer H). reflexivity.
  - repeat constructor.
Qed.

Lemma parse_fields_witness :
  64 <= Buffer.length (Buffer.mk 0x0035d10000680000ff 72) /\
  parse (Buffer.mk 0x0035d10000680000ff 72) = Ok (mkHeaderDescriptor "UDP" 64
    [ mkFieldDescriptor "UDP:Source Port" 0 (Buffer.mk 0x0035 16);
      mkFieldDescriptor "UDP:Destination Port" 0 (Buffer.mk 0xd100 16);
      mkFieldDescriptor "UDP:Length" 0 (Buffer.mk 0x0068 16);
      mkFieldDescriptor "UDP:Checksum" 0 (Buffer.mk 0x0000 16) ]).
Proof.
  split; [cbn; lia|].
  destruct (parse_fields (Buffer.mk 0x0035d10000680000ff 72)) as [H _]; [cbn; lia|].
  rewrite H. reflexivity.
Defined.

(** C9: two buffers of at least 64 bits that agree on their first 64 bits
    parse to the same header descriptor: the bits after the header are never
    read. *)
Theorem parse_depends_on_header_bits (b1 b2 : Buffer.t) :
  64 <= Buffer.length b1 -> 64 <= Buffer.length b2 ->
  Buffer.sub b1 0 64 = Buffer.sub b2 0 64 ->
  parse b1 = parse b2.
Proof.
  intros H1 H2 Heq.
  rewrite (parse_long b1 H1), (parse_long b2 H2). unfold parsed_header.
  rewrite <- (sub_sub b1 0 16 64), <- (sub_sub b1 16 32 64), <- (sub_sub b1 32 48 64),
          <- (sub_sub b1 48 64 64) by lia.
  rewrite <- (sub_sub b2 0 16 64), <- (sub_sub b2 16 32 64), <- (sub_sub b2 32 48 64),
          <- (sub_sub b2 48 64 64) by lia.
  rewrite Heq. reflexivity.
Qed.

Lemma parse_depends_on_header_bits_witness :
  64 <= Buffer.length (Buffer.mk 0x0035d10000680000ff 72) /\
  64 <= Buffer.length (Buffer.mk 0x0035d10000680000 64) /\
  Buffer.sub (Buffer.mk 0x0035d10000680000ff 72) 0 64 = Buffer.sub (Buffer.mk 0x0035d10000680000 64) 0 64 /\
  parse (Buffer.mk 0x0035d10000680000ff 72) = parse (Buffer.mk 0x0035d10000680000 64).
Proof.
  split; [cbn; lia|]. split; [cbn; lia|]. split; [vm_compute; reflexivity|].
  apply parse_depends_on_header_bits; [cbn; lia | cbn; lia | vm_compute; reflexivity].
Defined.

(** ** Claims on [_compute_length] *)





(** ** Python helpers *)

Lemma bind_ok {A B} (m : Result A) (k : A -> Result B) (b : B) :
  bind m k = Ok b -> exists a, m = Ok a /\ k a = Ok b.
Proof. destruct m as [a|e]; cbn; [eauto | discriminate]. Qed.

Lemma next_offset_ok (l : list string) (t : string) (off : Z) :
  next_offset l t = Ok off -> 0 <= off /\ nth_error l (Z.to_nat off) = Some t.
Proof.
  revert off. induction l as [|x l IH]; intros off H; cbn in H; [discriminate|].
  destruct (String.eqb x t) eqn:E.
  - injection H as <-. apply String.eqb_eq in E. subst. split; [lia | reflexivity].
  - apply bind_ok in H. destruct H as [k [Hk Hok]]. injection Hok as <-.
    destruct (IH k Hk) as [H0 Hn]. split; [lia|].
    replace (Z.to_nat (k + 1)) with (S (Z.to_nat k)) by lia. exact Hn.
Qed.

Lemma py_index_ok {A} (l : list A) (i : Z) (x : A) :
  py_index l i = Ok x ->
  - Z.of_nat (List.length l) <= i < Z.of_nat (List.length l) /\
  nth_error l (Z.to_nat (if i <? 0 then i + Z.of_nat (List.length l) else i)) = Some x.
Proof.
  unfold py_index. intros H.
  destruct ((0 <=? (if i <? 0 then i + Z.of_nat (List.length l) else i)) &&
            ((if i <? 0 then i + Z.of_nat (List.length l) else i) <? Z.of_nat (List.length l)))%bool
    eqn:E; [|discriminate].
  apply andb_true_iff in E. destruct E as [E1 E2]. apply Z.leb_le in E1. apply Z.ltb_lt in E2.
  destruct (nth_error _ _) eqn:En; [|discriminate]. injection H as <-.
  split; [destruct (i <? 0) eqn:Ei; [apply Z.ltb_lt in Ei | apply Z.ltb_ge in Ei]; lia | reflexivity].
Qed.

Lemma py_index_of_nth {A} (l : list A) (i : Z) (x : A) :
  - Z.of_nat (List.length l) <= i < Z.of_nat (List.length l) ->
  nth_error l (Z.to_nat (if i <? 0 then i + Z.of_nat (List.length l) else i)) = Some x ->
  py_index l i = Ok x.
Proof.
  intros Hi Hn. unfold py_index. rewrite Hn.
  replace ((0 <=? (if i <? 0 then i + Z.of_nat (List.length l) else i)) &&
           ((if i <? 0 then i + Z.of_nat (List.length l) else i) <? Z.of_nat (List.length l)))%bool
    with true; [reflexivity|].
  symmetry. apply andb_true_iff.
  destruct (i <? 0) eqn:Ei; [apply Z.ltb_lt in Ei | apply Z.ltb_ge in Ei];
    split; [apply Z.leb_le | apply Z.ltb_lt | apply Z.leb_le | apply Z.ltb_lt]; lia.
Qed.


(** The backward scan [l[p:0:-1]] from a valid index [p] finds, at offset
    [off], the element of [l] at index [p - off]. *)
Lemma rev_slice_scan (l : list string) (p : Z) (x t : string) (off : Z) :
  py_index l p = Ok x ->
  next_offset (rev_slice_to_1 l p) t = Ok off ->
  0 <= off /\ py_index l (p - off) = Ok t.
Proof.
  intros Hp Hoff. apply py_index_ok in Hp. destruct Hp as [Hr _].
  apply next_offset_ok in Hoff. destruct Hoff as [H0 Hn]. split; [exact H0|].
  set (n := Z.of_nat (List.length l)) in *.
  set (s := if p <? 0 then p + n else p).
  assert (Hs : rev_slice_start n p = s /\ 0 <= s < n).
  { unfold rev_slice_start, s. destruct (p <? 0) eqn:Ep;
      [apply Z.ltb_lt in Ep | apply Z.ltb_ge in Ep].
    - replace (p + n <? 0) with false by (symmetry; apply Z.ltb_ge; lia). lia.
    - replace (n <=? p) with false by (symmetry; apply Z.leb_gt; lia). lia. }
  destruct Hs as [Hs Hsr].
  unfold rev_slice_to_1 in Hn. fold n in Hn. rewrite Hs in Hn.
  rewrite nth_error_rev in Hn.
  rewrite length_skipn, length_firstn in Hn.
  destruct (Nat.ltb (Z.to_nat off) (Init.Nat.min (Z.to_nat (s + 1)) (List.length l) - 1)) eqn:Eo;
    [|discriminate]. apply Nat.ltb_lt in Eo.
  rewrite nth_error_skipn, nth_error_firstn in Hn.
  destruct (Nat.ltb _ (Z.to_nat (s + 1))) eqn:E2; [|discriminate].
  assert (Hsp : (p < 0 /\ s = p + n) \/ (0 <= p /\ s = p)).
  { unfold s. destruct (p <? 0) eqn:Ep; [apply Z.ltb_lt in Ep | apply Z.ltb_ge in Ep]; lia. }
  assert (HnL : n = Z.of_nat (List.length l)) by reflexivity.
  clearbody n s.
  apply py_index_of_nth; [lia|].
  rewrite <- Hn. f_equal.
  destruct Hsp as [[Hp Hs'] | [Hp Hs']];
  [replace (p - off <? 0) with true by (symmetry; apply Z.ltb_lt; lia)
  |replace (p - off <? 0) with false by (symmetry; apply Z.ltb_ge; lia)]; lia.
Qed.

(** ** The summation loops *)

(** one loop step [s = (s + carry) & 0xffff] is the end-around carry
    addition, and keeps the sum within 16 bits *)
Lemma add_chunk_eac (acc : Z) (chunk : Buffer.t) :
  0 <= acc <= 0xffff -> 0 <= Buffer.value chunk <= 0xffff ->
  add_chunk acc chunk = end_around_carry (acc + Buffer.value chunk) /\
  0 <= end_around_carry (acc + Buffer.value chunk) <= 0xffff.
Proof.
  intros Ha Hw. unfold add_chunk, end_around_carry.
  change 0xffff with (Z.ones 16).
  rewrite Z.land_ones, Z.shiftr_div_pow2 by lia.
  change (2 ^ 16) with 65536. change (Z.ones 16) with 65535 in *.
  Z.to_euclidean_division_equations. lia.
Qed.

Lemma fold_add_chunk (chunks : list Buffer.t) (acc : Z) :
  Forall (fun c => 0 <= Buffer.value c <= 0xffff) chunks -> 0 <= acc <= 0xffff ->
  fold_left add_chunk chunks acc =
    fold_left (fun a w => end_around_carry (a + w)) (map Buffer.value chunks) acc /\
  0 <= fold_left add_chunk chunks acc <= 0xffff.
Proof.
  revert acc. induction chunks as [|c cs IH]; intros acc Hall Hacc; cbn; [lia|].
  inversion Hall as [|? ? Hc Hcs]; subst.
  destruct (add_chunk_eac acc c Hacc Hc) as [E B].
  rewrite E. apply IH; assumption.
Qed.

Lemma fold_eac_bound (words : list Z) (acc : Z) :
  Forall (fun w => 0 <= w <= 0xffff) words -> 0 <= acc <= 0xffff ->
  0 <= fold_left (fun a w => end_around_carry (a + w)) words acc <= 0xffff.
Proof.
  revert acc. induction words as [|w ws IH]; intros acc Hall Hacc; cbn; [lia|].
  inversion Hall as [|? ? Hw Hws]; subst. apply IH; [assumption|].
  destruct (add_chunk_eac acc (Buffer.mk w 16) Hacc Hw) as [_ B]. exact B.
Qed.

Lemma complement16 (t : Z) :
  0 <= t <= 0xffff -> Z.land (Z.lnot t) 0xffff = Z.ones 16 - t.
Proof.
  intros Ht. change 0xffff with (Z.ones 16).
  rewrite Z.land_ones, Z.lnot_eq_pred_opp by lia.
  change (2 ^ 16) with 65536. change (Z.ones 16) with 65535 in *.
  Z.to_euclidean_division_equations. lia.
Qed.

(** ** Chunks and 16-bit words *)

Lemma pow2_split (a b : Z) : 0 <= a -> 0 <= b -> 2 ^ (a + b) = 2 ^ a * 2 ^ b.
Proof. intros. apply Z.pow_add_r; lia. Qed.

Lemma chunk_full (b : Buffer.t) (i : nat) :
  Buffer.value (Buffer.sub b (Z.of_nat i * 16) (Z.of_nat i * 16 + 16)) =
  (Buffer.value b / 2 ^ (Buffer.length b - 16 * (Z.of_nat i + 1))) mod 2 ^ 16.
Proof.
  unfold Buffer.sub. cbn [Buffer.value]. f_equal; [f_equal; f_equal; lia | f_equal; lia].
Qed.

(** The unpadded chunks of a buffer whose length is a multiple of 16 are its
    16-bit words. *)
Lemma chunks16_exact (b : Buffer.t) :
  Buffer.length b mod 16 = 0 ->
  exists cs, Buffer.chunks b 16 false = Ok cs /\
    map Buffer.value cs = words16 b /\
    Forall (fun c => 0 <= Buffer.value c <= 0xffff) cs.
Proof.
  intros Hr. unfold Buffer.chunks. rewrite Hr. cbn [Z.eqb].
  eexists; split; [reflexivity|]. split.
  - unfold words16. rewrite map_map. apply map_ext. intros i.
    apply chunk_full.
  - apply Forall_forall. intros c Hc. apply in_map_iff in Hc.
    destruct Hc as [i [<- _]]. unfold Buffer.sub. cbn [Buffer.value].
    pose proof (Z.mod_pos_bound (Buffer.value b / 2 ^ (Buffer.length b - (Z.of_nat i * 16 + 16)))
                  (2 ^ (Z.of_nat i * 16 + 16 - Z.of_nat i * 16)) ltac:(apply Z.pow_pos_nonneg; lia)).
    replace (Z.of_nat i * 16 + 16 - Z.of_nat i * 16) with 16 in * by lia.
    change (2 ^ 16) with 65536 in *. lia.
Qed.

(** The padded chunks of a buffer are the 16-bit words of the buffer
    zero-padded at its end to an even number of octets. *)
Lemma chunks16_padded (b : Buffer.t) :
  0 <= Buffer.length b ->
  exists cs, Buffer.chunks b 16 true = Ok cs /\
    map Buffer.value cs = words16 (pad_even_octets b) /\
    Forall (fun c => 0 <= Buffer.value c <= 0xffff) cs.
Proof.
  intros HL.
  destruct (Buffer.length b mod 16 =? 0) eqn:Er.
  - apply Z.eqb_eq in Er.
    destruct (chunks16_exact b Er) as [cs [H1 [H2 H3]]]. exists cs.
    unfold Buffer.chunks in *. rewrite Er in *. cbn [Z.eqb] in *.
    unfold pad_even_octets. rewrite Er. cbn [Z.eqb]. auto.
  - destruct b as [V L]. cbn [Buffer.length Buffer.value] in *.
    set (q := L / 16) in *. set (r := L mod 16) in *.
    assert (HLqr : L = 16 * q + r) by (unfold q, r; apply Z.div_mod; lia).
    assert (Hr : 0 < r < 16).
    { apply Z.eqb_neq in Er. pose proof (Z.mod_pos_bound L 16 ltac:(lia)) as Hb. change (L mod 16) with r in Hb. lia. }
    assert (Hq : 0 <= q) by (unfold q; apply Z.div_pos; lia).
    assert (Eq : L / 16 = q) by reflexivity. assert (Erm : L mod 16 = r) by reflexivity.
    clearbody q r.
    unfold Buffer.chunks. cbn [Buffer.length]. rewrite Eq, Erm.
    replace (r =? 0) with false by (symmetry; apply Z.eqb_neq; lia).
    eexists; split; [reflexivity|]. split.
    + unfold words16, pad_even_octets. cbn [Buffer.length Buffer.value].
      rewrite Erm.
      replace (r =? 0) with false by (symmetry; apply Z.eqb_neq; lia).
      cbn [Buffer.length Buffer.value].
      replace ((L + 16 - r) / 16) with (q + 1)
        by (subst L; replace (16 * q + r + 16 - r) with ((q + 1) * 16) by lia;
            rewrite Z.div_mul; lia).
      replace (Z.to_nat (q + 1)) with (S (Z.to_nat q)) by lia.
      rewrite seq_S, !map_app, map_map. f_equal.
      * apply map_ext_in. intros i Hi. apply in_seq in Hi.
        rewrite chunk_full. cbn [Buffer.value Buffer.length].
        replace (L + 16 - r - 16 * (Z.of_nat i + 1))
          with ((L - 16 * (Z.of_nat i + 1)) + (16 - r)) by lia.
        rewrite pow2_split by lia.
        rewrite Z.div_mul_cancel_r by (apply Z.pow_nonzero; lia). reflexivity.
      * cbn [map]. f_equal. unfold Buffer.extend, Buffer.sub. cbn [Buffer.value Buffer.length].
        replace (L - L) with 0 by lia.
        replace (L + 16 - r - 16 * (Z.of_nat (0 + Z.to_nat q) + 1)) with 0 by lia.
        replace (L - q * 16) with r by lia.
        rewrite !Z.pow_0_r, !Z.div_1_r.
        replace (2 ^ 16) with (2 ^ r * 2 ^ (16 - r))
          by (rewrite <- pow2_split by lia; f_equal; lia).
        rewrite Z.mul_mod_distr_r by (apply Z.pow_nonzero; lia). reflexivity.
    + apply Forall_app. split.
      * apply Forall_forall. intros c Hc. apply in_map_iff in Hc.
        destruct Hc as [i [<- _]]. unfold Buffer.sub. cbn [Buffer.value Buffer.length].
        pose proof (Z.mod_pos_bound (V / 2 ^ (L - (Z.of_nat i * 16 + 16)))
                      (2 ^ (Z.of_nat i * 16 + 16 - Z.of_nat i * 16)) ltac:(apply Z.pow_pos_nonneg; lia)).
        replace (Z.of_nat i * 16 + 16 - Z.of_nat i * 16) with 16 in * by lia.
        change (2 ^ 16) with 65536 in *. lia.
      * constructor; [|constructor]. unfold Buffer.extend, Buffer.sub. cbn [Buffer.value Buffer.length].
        replace (L - q * 16) with r by lia.
        pose proof (Z.mod_pos_bound (V / 2 ^ (L - L)) (2 ^ r) ltac:(apply Z.pow_pos_nonneg; lia)).
        assert (E16 : 2 ^ r * 2 ^ (16 - r) = 65536) by (rewrite <- pow2_split by lia;
                                                       replace (r + (16 - r)) with 16 by lia; reflexivity).
        assert (0 < 2 ^ (16 - r)) by (apply Z.pow_pos_nonneg; lia).
        nia.
Qed.

Lemma to_bytes_ok (v : Z) (k : nat) (content : list Z) :
  to_bytes v k = Ok content -> content = bytes_be k v /\ 0 <= v < 2 ^ (8 * Z.of_nat k).
Proof.
  unfold to_bytes. destruct ((0 <=? v) && (v <? 2 ^ (8 * Z.of_nat k)))%bool eqn:E; [|discriminate].
  intros H. injection H as <-. apply andb_true_iff in E. destruct E as [E1 E2].
  apply Z.leb_le in E1. apply Z.ltb_lt in E2. auto.
Qed.

Lemma of_bytes_be16 (v : Z) (k : nat) :
  0 <= v < 2 ^ (8 * Z.of_nat k) ->
  Buffer.of_bytes (bytes_be k v) 16 Buffer.LEFT = Buffer.mk (v mod 2 ^ 16) 16.
Proof.
  intros Hv. unfold Buffer.of_bytes.
  rewrite bytes_value_bytes_be, (Z.mod_small v (2 ^ (8 * Z.of_nat k))) by lia. reflexivity.
Qed.

Lemma protocol_id_17 : pseudo_header_protocol_id = Buffer.mk 17 16.
Proof. reflexivity. Qed.

Section ChecksumClaims.

Variables IPv6_HEADER_ID IPV4_HEADER_ID : string.
Variables IPv6_SRC_ADDRESS IPv4_SRC_ADDRESS : string.

Local Abbreviation inputs :=
  (checksum_inputs IPv6_HEADER_ID IPV4_HEADER_ID IPv6_SRC_ADDRESS IPv4_SRC_ADDRESS).
Local Abbreviation compute_checksum :=
  (_compute_checksum IPv6_HEADER_ID IPV4_HEADER_ID IPv6_SRC_ADDRESS IPv4_SRC_ADDRESS).

(** What lines 141-206 of [_compute_checksum] establish when they succeed. *)
Lemma checksum_inputs_ok (packet : Buffer.t) (field_cursor : Z)
    (df : list (string * Buffer.t)) (pos : Z) (udp ph : Buffer.t) :
  inputs packet field_cursor df pos = Ok (udp, ph) ->
  exists last i src dst,
    py_index (map fst df) (pos - 4) = Ok last /\
    Buffer.slice_from packet (field_cursor - 48) = Ok udp /\
    i <= pos - 4 /\
    py_index (map snd df) i = Ok src /\ py_index (map snd df) (i + 1) = Ok dst /\
    ((contains IPv6_HEADER_ID last = true /\
      py_index (map fst df) i = Ok IPv6_SRC_ADDRESS /\
      0 <= octets_of_bits (Buffer.length udp) < 2 ^ 32 /\
      ph = Buffer.concat (Buffer.concat (Buffer.concat src dst) (Buffer.mk 17 16))
             (Buffer.mk (octets_of_bits (Buffer.length udp) mod 2 ^ 16) 16)) \/
     (contains IPv6_HEADER_ID last = false /\ contains IPV4_HEADER_ID last = true /\
      py_index (map fst df) i = Ok IPv4_SRC_ADDRESS /\
      0 <= octets_of_bits (Buffer.length udp) < 2 ^ 16 /\
      ph = Buffer.concat (Buffer.concat (Buffer.concat src dst) (Buffer.mk 17 16))
             (Buffer.mk (octets_of_bits (Buffer.length udp)) 16))).
Proof.
  unfold checksum_inputs. intros H.
  apply bind_ok in H. destruct H as [last [Hlast H]].
  apply bind_ok in H. destruct H as [udp0 [Hudp H]].
  apply bind_ok in H. destruct H as [ph0 [Hph H]].
  injection H as <- <-.
  unfold build_pseudo_header in Hph.
  destruct (contains IPv6_HEADER_ID last) eqn:E6; [|destruct (contains IPV4_HEADER_ID last) eqn:E4];
    [| | discriminate].
  - apply bind_ok in Hph. destruct Hph as [off [Hoff Hph]].
    apply bind_ok in Hph. destruct Hph as [src [Hsrc Hph]].
    apply bind_ok in Hph. destruct Hph as [dst [Hdst Hph]].
    apply bind_ok in Hph. destruct Hph as [content [Hc Hph]].
    injection Hph as <-.
    destruct (rev_slice_scan _ _ _ _ _ Hlast Hoff) as [Hoff0 Hi].
    apply to_bytes_ok in Hc. destruct Hc as [-> Hr]. change (8 * Z.of_nat 4) with 32 in Hr.
    exists last, (pos - 4 - off), src, dst.
    rewrite protocol_id_17, bytes_value_bytes_be.
    change (Z.pow_pos 2 16) with (2 ^ 16).
    rewrite (Z.mod_small (octets_of_bits (Buffer.length udp0)) (2 ^ (8 * Z.of_nat 4))) by (cbn; lia).
    split; [assumption|]. split; [assumption|]. split; [lia|].
    split; [assumption|]. split; [assumption|].
    left. split; [assumption|]. split; [assumption|]. split; [lia|reflexivity].
  - apply bind_ok in Hph. destruct Hph as [off [Hoff Hph]].
    apply bind_ok in Hph. destruct Hph as [src [Hsrc Hph]].
    apply bind_ok in Hph. destruct Hph as [dst [Hdst Hph]].
    apply bind_ok in Hph. destruct Hph as [content [Hc Hph]].
    injection Hph as <-.
    destruct (rev_slice_scan _ _ _ _ _ Hlast Hoff) as [Hoff0 Hi].
    apply to_bytes_ok in Hc. destruct Hc as [-> Hr]. change (8 * Z.of_nat 2) with 16 in Hr.
    exists last, (pos - 4 - off), src, dst.
    rewrite protocol_id_17, bytes_value_bytes_be.
    change (Z.pow_pos 2 16) with (2 ^ 16).
    rewrite (Z.mod_small (octets_of_bits (Buffer.length udp0)) (2 ^ (8 * Z.of_nat 2))) by (cbn; lia).
    rewrite (Z.mod_small (octets_of_bits (Buffer.length udp0))) by lia.
    split; [assumption|]. split; [assumption|]. split; [lia|].
    split; [assumption|]. split; [assumption|].
    right. split; [assumption|]. split; [assumption|]. split; [assumption|].
    split; [lia|reflexivity].
Qed.

Lemma checksum_inputs_udp_length (packet : Buffer.t) (field_cursor : Z)
    (df : list (string * Buffer.t)) (pos : Z) (udp ph : Buffer.t) :
  inputs packet field_cursor df pos = Ok (udp, ph) -> 0 <= Buffer.length udp.
Proof.
  intros H. apply checksum_inputs_ok in H.
  destruct H as [_ [_ [_ [_ [_ [Hs _]]]]]].
  unfold Buffer.slice_from, Buffer.slice in Hs.
  destruct (_ && _ && _)%bool eqn:E; [|discriminate].
  injection Hs as <-. repeat rewrite andb_true_iff in E. destruct E as [[E1 E2] E3].
  apply Z.leb_le in E1. apply Z.leb_le in E2. unfold Buffer.sub. cbn [Buffer.length]. lia.
Qed.

(** C2: the checksum is the 16-bit one's complement of the end-around carry
    combination of the one's complement sum of the pseudo-header's 16-bit
    big-endian words and the one's complement sum of the words of the UDP
    header and payload zero-padded to an even number of octets, each sum
    folding the carry after every addition; the returned buffer carries that
    value, after the zero escape of C8. *)
Theorem compute_checksum_ones_complement (packet : Buffer.t) (field_cursor : Z)
    (df : list (string * Buffer.t)) (pos : Z) (udp ph : Buffer.t) :
  inputs packet field_cursor df pos = Ok (udp, ph) ->
  Buffer.length ph mod 16 = 0 ->
  compute_checksum packet field_cursor df pos =
    Ok (Buffer.mk (zero_escape (checksum_spec ph udp)) 16).
Proof.
  intros H Hm. pose proof (checksum_inputs_udp_length _ _ _ _ _ _ H) as Hu.
  unfold _compute_checksum. rewrite H. cbn [bind].
  destruct (chunks16_exact ph Hm) as [pcs [Hp [Hpv Hpb]]]. rewrite Hp. cbn [bind].
  destruct (chunks16_padded udp Hu) as [ucs [Hu' [Huv Hub]]]. rewrite Hu'. cbn [bind].
  destruct (fold_add_chunk pcs 0 Hpb ltac:(lia)) as [Ep Bp].
  destruct (fold_add_chunk ucs 0 Hub ltac:(lia)) as [Eu Bu].
  set (P := fold_left add_chunk pcs 0) in *. set (U := fold_left add_chunk ucs 0) in *.
  destruct (add_chunk_eac P (Buffer.mk U 16) Bp Bu) as [Ec Bc]. cbn [Buffer.value] in Ec, Bc.
  change (Z.land (P + U + Z.shiftr (P + U) 16) 65535) with (add_chunk P (Buffer.mk U 16)).
  rewrite Ec, complement16 by exact Bc.
  assert (Hspec : checksum_spec ph udp = Z.ones 16 - end_around_carry (P + U)).
  { unfold checksum_spec, ones_complement_sum. rewrite <- Hpv, <- Huv, <- Ep, <- Eu. reflexivity. }
  rewrite <- Hspec. fold (zero_escape (checksum_spec ph udp)).
  assert (Hz : 0 <= zero_escape (checksum_spec ph udp) < 2 ^ 16).
  { unfold zero_escape. rewrite Hspec. change (Z.ones 16) with 65535.
    change (2 ^ 16) with 65536. destruct (_ =? 0); lia. }
  destruct (to_bytes_buffer16 (zero_escape (checksum_spec ph udp)) 2) as [c [Hc Hb]];
    [lia | cbn; cbn in Hz; lia |].
  rewrite Hc. cbn [bind]. rewrite Hb, Z.mod_small by lia. reflexivity.
Qed.



(** C5 (amended): the shape is decided by the id of the single field at
    Python index [rule_field_position - 4] of [decompressed_fields], without
    any scan: the IPv6 branch when that id contains the IPv6 marker, the IPv4
    branch when it contains the IPv4 marker and not the IPv6 one; the
    backward scan from that index only locates the source-address field of
    the chosen branch. *)
Theorem checksum_dispatch (packet : Buffer.t) (field_cursor : Z)
    (df : list (string * Buffer.t)) (pos : Z) (udp ph : Buffer.t) :
  inputs packet field_cursor df pos = Ok (udp, ph) ->
  exists last i,
    py_index (map fst df) (pos - 4) = Ok last /\ i <= pos - 4 /\
    if contains IPv6_HEADER_ID last then py_index (map fst df) i = Ok IPv6_SRC_ADDRESS
    else contains IPV4_HEADER_ID last = true /\ py_index (map fst df) i = Ok IPv4_SRC_ADDRESS.
Proof.
  intros H. apply checksum_inputs_ok in H.
  destruct H as [last [i [src [dst [Hl [_ [Hi [_ [_ Hb]]]]]]]]].
  exists last, i. split; [exact Hl|]. split; [exact Hi|].
  destruct Hb as [[E6 [Hs _]] | [E6 [E4 [Hs _]]]]; rewrite E6; auto.
Qed.

(** C10: when the field at index [rule_field_position - 4] carries neither
    namespace marker, [_compute_checksum] never returns a checksum: it fails
    with UnboundLocalError (no pseudo-header is ever assigned), or before that
    with a bounds error when [packet[field_cursor-48:]] is out of range. *)
Theorem compute_checksum_no_network_layer (packet : Buffer.t) (field_cursor : Z)
    (df : list (string * Buffer.t)) (pos : Z) (last : string) :
  py_index (map fst df) (pos - 4) = Ok last ->
  contains IPv6_HEADER_ID last = false ->
  contains IPV4_HEADER_ID last = false ->
  compute_checksum packet field_cursor df pos =
    Err (if (0 <=? field_cursor - 48) && (field_cursor - 48 <=? Buffer.length packet)
         then UnboundLocalError else BufferError).
Proof.
  intros Hl E6 E4. unfold _compute_checksum, checksum_inputs. rewrite Hl. cbn [bind].
  unfold Buffer.slice_from, Buffer.slice. rewrite Z.leb_refl, andb_true_r.
  destruct (_ && _)%bool; cbn [bind]; [|reflexivity].
  unfold build_pseudo_header. rewrite E6, E4. reflexivity.
Qed.

End ChecksumClaims.

(** ** Witnesses and counterexamples of the checksum claims *)

Lemma compute_checksum_ones_complement_witness :
  checksum_inputs_ids fixture_packet 368 fixture_fields 11 = Ok (fixture_udp, fixture_pseudo_header) /\
  Buffer.length fixture_pseudo_header mod 16 = 0 /\
  compute_checksum_ids fixture_packet 368 fixture_fields 11 =
    Ok (Buffer.mk (zero_escape (checksum_spec fixture_pseudo_header fixture_udp)) 16).
Proof.
  assert (H : checksum_inputs_ids fixture_packet 368 fixture_fields 11 =
              Ok (fixture_udp, fixture_pseudo_header)) by (vm_compute; reflexivity).
  split; [exact H|]. split; [vm_compute; reflexivity|].
  apply (compute_checksum_ones_complement _ _ _ _ fixture_packet 368 fixture_fields 11
           fixture_udp fixture_pseudo_header H). vm_compute. reflexivity.
Defined.




Lemma checksum_dispatch_witness :
  checksum_inputs_ids fixture_packet 368 fixture_fields 11 = Ok (fixture_udp, fixture_pseudo_header) /\
  exists last i,
    py_index (map fst fixture_fields) (11 - 4) = Ok last /\ i <= 11 - 4 /\
    if contains Ids.IPv6_HEADER_ID last
    then py_index (map fst fixture_fields) i = Ok Ids.IPv6_SRC_ADDRESS
    else contains Ids.IPV4_HEADER_ID last = true /\
         py_index (map fst fixture_fields) i = Ok Ids.IPv4_SRC_ADDRESS.
Proof.
  assert (H : checksum_inputs_ids fixture_packet 368 fixture_fields 11 =
              Ok (fixture_udp, fixture_pseudo_header)) by (vm_compute; reflexivity).
  split; [exact H|].
  exact (checksum_dispatch _ _ _ _ fixture_packet 368 fixture_fields 11 _ _ H).
Defined.

(** C5, as stated, fails: scanning backward from the checksum's rule
    position, the last field of the IPv4/IPv6 namespaces is the IPv6
    destination address, yet [_compute_checksum] looks only at the field four
    positions back (a routing-header field) and fails with no pseudo-header
    instead of choosing the IPv6 shape. *)
Lemma checksum_dispatch_scan_counterexample :
  enclosing_network_layer_field Ids.IPv6_HEADER_ID Ids.IPV4_HEADER_ID routed_fields 6 =
    Some "IPv6:Destination Address" /\
  contains Ids.IPv6_HEADER_ID "IPv6:Destination Address" = true /\
  compute_checksum_ids fixture_packet 368 routed_fields 6 = Err UnboundLocalError.
Proof. split; [|split]; vm_compute; reflexivity. Qed.

Lemma compute_checksum_no_network_layer_witness :
  py_index (map fst routed_fields) (6 - 4) = Ok "SRH:Segments Left" /\
  contains Ids.IPv6_HEADER_ID "SRH:Segments Left" = false /\
  contains Ids.IPV4_HEADER_ID "SRH:Segments Left" = false /\
  compute_checksum_ids fixture_packet 368 routed_fields 6 = Err UnboundLocalError.
Proof.
  split; [vm_compute; reflexivity|]. split; [vm_compute; reflexivity|].
  split; [vm_compute; reflexivity|].
  unfold compute_checksum_ids.
  rewrite (compute_checksum_no_network_layer _ _ _ _ fixture_packet 368 routed_fields 6
             "SRH:Segments Left"); vm_compute; reflexivity.
Defined.

(** The expected packet of the decompression fixture is 144 octets long: a
    40-octet IPv6 header and the 104 octets its payload-length field
    announces. *)
Lemma valid_stack_packet_length :
  List.length valid_stack_packet = 144%nat /\
  Buffer.sub fixture_packet 32 48 = Buffer.mk (144 - 40) 16.
Proof. split; vm_compute; reflexivity. Qed.

(** * Further properties of the UDP code *)

(** ** One's complement sums as integer sums *)

(** ** One's complement arithmetic *)

Lemma ones_rep_range (x : Z) : 0 <= ones_rep x <= 0xffff.
Proof.
  unfold ones_rep. destruct (x =? 0); [lia|].
  pose proof (Z.mod_pos_bound (x - 1) 0xffff ltac:(lia)). lia.
Qed.

Lemma ones_rep_eac (x : Z) :
  0 <= x <= 2 * 0xffff -> end_around_carry x = ones_rep x.
Proof.
  intros Hx. unfold end_around_carry, ones_rep. change (2 ^ 16) with 65536.
  destruct (x =? 0) eqn:E; [apply Z.eqb_eq in E; subst; reflexivity|].
  apply Z.eqb_neq in E. Z.to_euclidean_division_equations. lia.
Qed.

Lemma ones_rep_add (a w : Z) :
  0 <= a -> 0 <= w -> ones_rep (ones_rep a + w) = ones_rep (a + w).
Proof.
  intros Ha Hw. unfold ones_rep.
  destruct (a =? 0) eqn:Ea; [apply Z.eqb_eq in Ea; subst; reflexivity|].
  apply Z.eqb_neq in Ea.
  replace ((a - 1) mod 65535 + 1 + w =? 0) with false
    by (symmetry; apply Z.eqb_neq; pose proof (Z.mod_pos_bound (a - 1) 65535); lia).
  replace (a + w =? 0) with false by (symmetry; apply Z.eqb_neq; lia).
  f_equal. Z.to_euclidean_division_equations. lia.
Qed.

Lemma fold_eac_ones_rep (ws : list Z) (a : Z) :
  Forall (fun w => 0 <= w <= 0xffff) ws -> 0 <= a ->
  fold_left (fun acc w => end_around_carry (acc + w)) ws (ones_rep a) = ones_rep (a + sum_words ws).
Proof.
  revert a. induction ws as [|w ws IH]; intros a Hall Ha; cbn [fold_left sum_words fold_right].
  - f_equal. lia.
  - inversion Hall as [|? ? Hw Hws]; subst.
    pose proof (ones_rep_range a).
    rewrite ones_rep_eac by lia. rewrite ones_rep_add by lia.
    rewrite IH by (assumption || lia). f_equal. unfold sum_words. lia.
Qed.

Lemma ones_complement_sum_rep (ws : list Z) :
  Forall (fun w => 0 <= w <= 0xffff) ws -> ones_complement_sum ws = ones_rep (sum_words ws).
Proof.
  intros H. unfold ones_complement_sum. change 0 with (ones_rep 0) at 1.
  rewrite fold_eac_ones_rep by (assumption || lia). reflexivity.
Qed.

Lemma sum_words_nonneg (ws : list Z) :
  Forall (fun w => 0 <= w <= 0xffff) ws -> 0 <= sum_words ws.
Proof. unfold sum_words. induction 1; cbn; lia. Qed.

Lemma sum_words_app (l1 l2 : list Z) : sum_words (l1 ++ l2) = sum_words l1 + sum_words l2.
Proof. induction l1 as [|x l IH]; cbn; [reflexivity|]. unfold sum_words in *. cbn. lia. Qed.

Lemma words16_range (b : Buffer.t) : Forall (fun w => 0 <= w <= 0xffff) (words16 b).
Proof.
  unfold words16. apply Forall_forall. intros w Hw. apply in_map_iff in Hw.
  destruct Hw as [i [<- _]]. pose proof (Z.mod_pos_bound (Buffer.value b / 2 ^ (Buffer.length b - 16 * (Z.of_nat i + 1))) (2 ^ 16) ltac:(lia)).
  change (2 ^ 16) with 65536 in *. lia.
Qed.

(** the checksum as the complement of the one's complement representative
    of the plain integer sum of all the words *)
Lemma checksum_spec_sum (ph udp : Buffer.t) :
  checksum_spec ph udp =
  0xffff - ones_rep (sum_words (words16 ph) + sum_words (words16 (pad_even_octets udp))).
Proof.
  unfold checksum_spec.
  rewrite !ones_complement_sum_rep by apply words16_range.
  pose proof (sum_words_nonneg _ (words16_range ph)).
  pose proof (sum_words_nonneg _ (words16_range (pad_even_octets udp))).
  set (P := sum_words (words16 ph)) in *. set (U := sum_words (words16 (pad_even_octets udp))) in *.
  pose proof (ones_rep_range P). pose proof (ones_rep_range U).
  rewrite ones_rep_eac by lia. rewrite ones_rep_add by lia.
  rewrite Z.add_comm, ones_rep_add by lia. rewrite Z.add_comm. reflexivity.
Qed.

(** ** Buffers as bit strings *)

Lemma map_seq_shift {A} (f : nat -> A) (n m : nat) :
  map f (seq n m) = map (fun j => f (n + j)%nat) (seq 0 m).
Proof.
  revert n. induction m as [|m IH]; intros n; [reflexivity|].
  cbn [seq map]. rewrite Nat.add_0_r. f_equal.
  rewrite IH, <- seq_shift, map_map.
  apply map_ext. intros j. f_equal. lia.
Qed.

Lemma words16_concat (a b : Buffer.t) :
  Buffer.length a mod 16 = 0 -> 0 <= Buffer.length a ->
  well_formed b = true ->
  words16 (Buffer.concat a b) = words16 a ++ words16 b.
Proof.
  intros Ha Hla Hb. unfold well_formed in Hb.
  repeat rewrite andb_true_iff in Hb. destruct Hb as [[Hb1 Hb2] Hb3].
  apply Z.leb_le in Hb1. apply Z.leb_le in Hb2. apply Z.ltb_lt in Hb3.
  destruct a as [va la], b as [vb lb]. cbn [Buffer.length Buffer.value] in *.
  unfold words16, Buffer.concat. cbn [Buffer.length Buffer.value].
  assert (Hq : la = 16 * (la / 16)) by (pose proof (Z.div_mod la 16); lia).
  set (qa := la / 16) in *. clearbody qa. subst la.
  assert (0 <= qa) by lia.
  replace ((16 * qa + lb) / 16) with (qa + lb / 16)
    by (rewrite (Z.add_comm (16 * qa) lb), (Z.mul_comm 16 qa), Z.div_add by lia; lia).
  assert (0 <= lb / 16) by (apply Z.div_pos; lia).
  rewrite Z2Nat.inj_add, seq_app, map_app by lia.
  f_equal.
  - apply map_ext_in. intros i Hi. apply in_seq in Hi.
    set (k := 16 * qa - 16 * (Z.of_nat i + 1)).
    assert (0 <= k) by (unfold k; lia).
    replace (16 * qa + lb - 16 * (Z.of_nat i + 1)) with (lb + k) by (unfold k; lia).
    replace (16 * qa - 16 * (Z.of_nat i + 1)) with k by reflexivity.
    rewrite pow2_split, <- Z.div_div by (try lia; apply Z.pow_pos_nonneg; lia).
    rewrite Z.div_add_l by (apply Z.pow_nonzero; lia).
    rewrite (Z.div_small vb) by lia. rewrite Z.add_0_r. reflexivity.
  - rewrite map_seq_shift. apply map_ext_in. intros j Hj. apply in_seq in Hj.
    set (e := lb - 16 * (Z.of_nat j + 1)).
    assert (0 <= e) by (unfold e; pose proof (Z.mul_div_le lb 16); lia).
    replace (16 * qa + lb - 16 * (Z.of_nat (0 + Z.to_nat qa + j) + 1)) with e by (unfold e; lia).
    replace (va * 2 ^ lb) with (va * 2 ^ (lb - e - 16) * 2 ^ 16 * 2 ^ e)
      by (rewrite <- !Z.mul_assoc, <- !pow2_split by lia; f_equal; f_equal; lia).
    rewrite Z.div_add_l by (apply Z.pow_nonzero; lia).
    rewrite Z.add_comm, Z.mod_add by lia. reflexivity.
Qed.

Lemma words16_word (w : Z) : 0 <= w < 2 ^ 16 -> words16 (Buffer.mk w 16) = [w].
Proof.
  intros Hw. unfold words16. cbn [Buffer.value Buffer.length].
  change (Z.to_nat (16 / 16)) with 1%nat. cbn [seq map].
  replace (16 - 16 * (Z.of_nat 0 + 1)) with 0 by reflexivity.
  rewrite Z.pow_0_r, Z.div_1_r, Z.mod_small by assumption. reflexivity.
Qed.

Lemma words16_dword (w : Z) :
  0 <= w < 2 ^ 32 -> words16 (Buffer.mk w 32) = [w / 2 ^ 16; w mod 2 ^ 16].
Proof.
  intros Hw. unfold words16. cbn [Buffer.value Buffer.length].
  change (Z.to_nat (32 / 16)) with 2%nat. cbn [seq map].
  replace (32 - 16 * (Z.of_nat 0 + 1)) with 16 by reflexivity.
  replace (32 - 16 * (Z.of_nat 1 + 1)) with 0 by reflexivity.
  rewrite Z.pow_0_r, Z.div_1_r. f_equal. rewrite Z.mod_small; [reflexivity|].
  split; [apply Z.div_pos; lia|]. apply Z.div_lt_upper_bound; [lia|]. change (2 ^ 16 * 2 ^ 16) with (2 ^ 32); exact (proj2 Hw).
Qed.

Lemma concat_assoc (a b c : Buffer.t) :
  0 <= Buffer.length b -> 0 <= Buffer.length c ->
  Buffer.concat (Buffer.concat a b) c = Buffer.concat a (Buffer.concat b c).
Proof.
  destruct a as [va la], b as [vb lb], c as [vc lc]. cbn. intros. unfold Buffer.concat. cbn.
  rewrite pow2_split by lia. f_equal; ring.
Qed.

Lemma well_formed_concat (a b : Buffer.t) :
  well_formed a = true -> well_formed b = true -> well_formed (Buffer.concat a b) = true.
Proof.
  unfold well_formed. destruct a as [va la], b as [vb lb]. unfold Buffer.concat. cbn.
  rewrite !andb_true_iff, !Z.leb_le, !Z.ltb_lt. intros [[H1 H2] H3] [[H4 H5] H6].
  rewrite pow2_split by lia. split; [split|]; [lia|nia|nia].
Qed.

Lemma well_formed_sub (b : Buffer.t) (a e : Z) :
  a <= e -> well_formed (Buffer.sub b a e) = true.
Proof.
  intros H. unfold well_formed, Buffer.sub. cbn.
  pose proof (Z.mod_pos_bound (Buffer.value b / 2 ^ (Buffer.length b - e)) (2 ^ (e - a))
                ltac:(apply Z.pow_pos_nonneg; lia)).
  rewrite !andb_true_iff, !Z.leb_le, Z.ltb_lt. lia.
Qed.

Lemma well_formed_pad (b : Buffer.t) :
  well_formed b = true -> well_formed (pad_even_octets b) = true.
Proof.
  unfold pad_even_octets. destruct (_ =? 0) eqn:E; [auto|].
  apply Z.eqb_neq in E. destruct b as [v l]. unfold well_formed. cbn [Buffer.length Buffer.value] in *.
  rewrite !andb_true_iff, !Z.leb_le, !Z.ltb_lt. intros [[H1 H2] H3].
  pose proof (Z.mod_pos_bound l 16 ltac:(lia)).
  replace (l + 16 - l mod 16) with (l + (16 - l mod 16)) by lia.
  rewrite pow2_split by lia.
  assert (0 < 2 ^ (16 - l mod 16)) by (apply Z.pow_pos_nonneg; lia).
  split; [split|]; [lia|nia|nia].
Qed.

Lemma pad_concat (a b : Buffer.t) :
  Buffer.length a mod 16 = 0 -> 0 <= Buffer.length b ->
  pad_even_octets (Buffer.concat a b) = Buffer.concat a (pad_even_octets b).
Proof.
  intros Ha Hb. destruct a as [va la], b as [vb lb]. cbn [Buffer.length] in *.
  unfold pad_even_octets, Buffer.concat. cbn [Buffer.length Buffer.value].
  replace ((la + lb) mod 16) with (lb mod 16)
    by (rewrite Z.add_mod, Ha by lia; cbn; rewrite Z.mod_mod by lia; reflexivity).
  destruct (lb mod 16 =? 0); [reflexivity|]. cbn [Buffer.length Buffer.value].
  pose proof (Z.mod_pos_bound lb 16 ltac:(lia)).
  replace (lb + 16 - lb mod 16) with (lb + (16 - lb mod 16)) by lia.
  rewrite pow2_split by lia. f_equal; ring.
Qed.

(** cutting a concatenation from a point of its first part *)
Lemma sub_concat_right (a b : Buffer.t) (s : Z) :
  0 <= s <= Buffer.length a -> well_formed b = true ->
  Buffer.sub (Buffer.concat a b) s (Buffer.length a + Buffer.length b) =
  Buffer.concat (Buffer.sub a s (Buffer.length a)) b.
Proof.
  intros Hs Hb. unfold well_formed in Hb.
  repeat rewrite andb_true_iff in Hb. destruct Hb as [[Hb1 Hb2] Hb3].
  apply Z.leb_le in Hb1. apply Z.leb_le in Hb2. apply Z.ltb_lt in Hb3.
  destruct a as [va la], b as [vb lb]. cbn [Buffer.length Buffer.value] in *.
  unfold Buffer.sub, Buffer.concat. cbn [Buffer.length Buffer.value].
  replace (la + lb - (la + lb)) with 0 by lia. replace (la - la) with 0 by lia.
  rewrite !Z.pow_0_r, !Z.div_1_r. f_equal; [|lia].
  replace (la + lb - s) with (lb + (la - s)) by lia.
  rewrite pow2_split, Z.rem_mul_r by (try lia; apply Z.pow_pos_nonneg; lia).
  rewrite Z.div_add_l, (Z.div_small vb) by (lia || apply Z.pow_nonzero; lia).
  rewrite Z.add_0_r, (Z.add_comm (va * 2 ^ lb) vb), Z.mod_add, Z.mod_small by (lia || apply Z.pow_nonzero; lia).
  ring.
Qed.

(** two adjacent cuts of a buffer, concatenated *)
Lemma concat_sub_adjacent (b : Buffer.t) (a m e : Z) :
  0 <= a <= m -> m <= e <= Buffer.length b ->
  Buffer.concat (Buffer.sub b a m) (Buffer.sub b m e) = Buffer.sub b a e.
Proof.
  intros H1 H2. destruct b as [v L]. cbn [Buffer.length] in *.
  unfold Buffer.sub, Buffer.concat. cbn [Buffer.length Buffer.value]. f_equal; [|lia].
  set (w := v / 2 ^ (L - e)).
  replace (v / 2 ^ (L - m)) with (w / 2 ^ (e - m))
    by (unfold w; rewrite Z.div_div, <- pow2_split by (try lia; apply Z.pow_pos_nonneg; lia);
        f_equal; f_equal; lia).
  replace (e - a) with ((e - m) + (m - a)) by lia.
  rewrite pow2_split, Z.rem_mul_r by (try lia; apply Z.pow_pos_nonneg; lia). ring.
Qed.

(** ** Helpers on the code *)

Lemma chunks_exact_mod (b : Buffer.t) (cs : list Buffer.t) :
  Buffer.chunks b 16 false = Ok cs -> Buffer.length b mod 16 = 0.
Proof.
  unfold Buffer.chunks. destruct (Buffer.length b mod 16 =? 0) eqn:E.
  - intros _. apply Z.eqb_eq. exact E.
  - discriminate.
Qed.

Lemma py_index_in {A} (l : list A) (i : Z) (x : A) : py_index l i = Ok x -> In x l.
Proof. intros H. apply py_index_ok in H. destruct H as [_ H]. eapply nth_error_In. exact H. Qed.

Lemma next_offset_not_in (l : list string) (t : string) :
  ~ In t l -> next_offset l t = Err StopIteration.
Proof.
  induction l as [|x l IH]; intros Hn; [reflexivity|]. cbn.
  destruct (String.eqb x t) eqn:E.
  - apply String.eqb_eq in E. subst. exfalso. apply Hn. left. reflexivity.
  - rewrite IH; [reflexivity|]. intros Hi. apply Hn. right. exact Hi.
Qed.

Lemma rev_slice_nonneg {A} (l : list A) (p : Z) :
  0 <= p < Z.of_nat (List.length l) ->
  rev_slice_to_1 l p = rev (skipn 1 (firstn (Z.to_nat (p + 1)) l)).
Proof.
  intros Hp. unfold rev_slice_to_1, rev_slice_start.
  replace (p <? 0) with false by (symmetry; apply Z.ltb_ge; lia).
  replace (Z.of_nat (List.length l) <=? p) with false by (symmetry; apply Z.leb_gt; lia).
  reflexivity.
Qed.

(** the UDP datagram of a packet built around a 16-bit word *)
Lemma slice_around_word (pre post : Buffer.t) (w s : Z) :
  0 <= s <= Buffer.length pre -> 0 <= w < 2 ^ 16 -> well_formed post = true ->
  Buffer.slice_from (Buffer.concat (Buffer.concat pre (Buffer.mk w 16)) post) s =
  Ok (Buffer.concat (Buffer.concat (Buffer.sub pre s (Buffer.length pre)) (Buffer.mk w 16)) post).
Proof.
  intros Hs Hw Hp.
  assert (Hl : 0 <= Buffer.length post) by
    (unfold well_formed in Hp; repeat rewrite andb_true_iff in Hp; destruct Hp as [[H _] _];
     apply Z.leb_le in H; exact H).
  unfold Buffer.slice_from. rewrite slice_in_bounds by (cbn; lia).
  change (Buffer.length (Buffer.concat (Buffer.concat pre (Buffer.mk w 16)) post))
    with (Buffer.length (Buffer.concat pre (Buffer.mk w 16)) + Buffer.length post).
  rewrite sub_concat_right by (cbn; lia || assumption). f_equal. f_equal.
  change (Buffer.length (Buffer.concat pre (Buffer.mk w 16))) with (Buffer.length pre + Buffer.length (Buffer.mk w 16)).
  rewrite sub_concat_right; [reflexivity | lia |].
  unfold well_formed. cbn. rewrite !andb_true_iff, !Z.leb_le, Z.ltb_lt. lia.
Qed.

Lemma sum_around_word (h post : Buffer.t) (w : Z) :
  Buffer.length h mod 16 = 0 -> 0 <= Buffer.length h ->
  0 <= w < 2 ^ 16 -> well_formed post = true ->
  sum_words (words16 (pad_even_octets (Buffer.concat (Buffer.concat h (Buffer.mk w 16)) post))) =
  sum_words (words16 h) + w + sum_words (words16 (pad_even_octets post)).
Proof.
  intros Hm Hh Hw Hp.
  assert (Hl : 0 <= Buffer.length post) by
    (unfold well_formed in Hp; repeat rewrite andb_true_iff in Hp; destruct Hp as [[H _] _];
     apply Z.leb_le in H; exact H).
  assert (Hwf : well_formed (Buffer.mk w 16) = true)
    by (unfold well_formed; cbn; rewrite !andb_true_iff, !Z.leb_le, Z.ltb_lt; lia).
  assert (Hm' : Buffer.length (Buffer.concat h (Buffer.mk w 16)) mod 16 = 0)
    by (cbn [Buffer.concat Buffer.length]; rewrite Z.add_mod, Hm by lia; reflexivity).
  rewrite pad_concat by assumption.
  rewrite words16_concat by (try assumption; cbn; lia || apply well_formed_pad; assumption).
  rewrite words16_concat, words16_word by assumption.
  rewrite !sum_words_app. cbn [sum_words fold_right]. lia.
Qed.

Lemma fill_arith (T : Z) :
  0 <= T -> zero_escape (0xffff - ones_rep (T + zero_escape (0xffff - ones_rep T))) = 0xffff.
Proof.
  intros HT. unfold zero_escape, ones_rep.
  destruct (T =? 0) eqn:E0; [apply Z.eqb_eq in E0; subst; reflexivity|]. apply Z.eqb_neq in E0.
  pose proof (Z.mod_pos_bound (T - 1) 65535 ltac:(lia)).
  destruct (65535 - ((T - 1) mod 65535 + 1) =? 0) eqn:E1;
    [apply Z.eqb_eq in E1 | apply Z.eqb_neq in E1];
    (replace (T + _ =? 0) with false by (symmetry; apply Z.eqb_neq; lia));
    (replace (65535 - _ =? 0) with true; [reflexivity|]);
    symmetry; apply Z.eqb_eq; Z.to_euclidean_division_equations; lia.
Qed.

Lemma detect_arith (A w w' : Z) :
  0 < A -> 0 <= w < 2 ^ 16 -> 0 <= w' < 2 ^ 16 -> w <> w' ->
  ~ (w = 0 /\ w' = 0xffff) -> ~ (w = 0xffff /\ w' = 0) ->
  zero_escape (0xffff - ones_rep (A + w)) <> zero_escape (0xffff - ones_rep (A + w')).
Proof.
  intros HA Hw Hw' Hne H1 H2. change (2 ^ 16) with 65536 in *. unfold zero_escape, ones_rep.
  replace (A + w =? 0) with false by (symmetry; apply Z.eqb_neq; lia).
  replace (A + w' =? 0) with false by (symmetry; apply Z.eqb_neq; lia).
  pose proof (Z.mod_pos_bound (A + w - 1) 65535 ltac:(lia)).
  pose proof (Z.mod_pos_bound (A + w' - 1) 65535 ltac:(lia)).
  destruct (65535 - ((A + w - 1) mod 65535 + 1) =? 0) eqn:E1;
    [apply Z.eqb_eq in E1 | apply Z.eqb_neq in E1];
  destruct (65535 - ((A + w' - 1) mod 65535 + 1) =? 0) eqn:E2;
    [apply Z.eqb_eq in E2 | apply Z.eqb_neq in E2 | apply Z.eqb_eq in E2 | apply Z.eqb_neq in E2];
    intros Heq; Z.to_euclidean_division_equations; nia.
Qed.

Lemma concat_empty (b : Buffer.t) : Buffer.concat (Buffer.mk 0 0) b = b.
Proof. destruct b as [v l]. unfold Buffer.concat. cbn. reflexivity. Qed.

(** ** Properties of the code *)

(** Round trip: concatenating, in order, the four field values that
    [parse] returns gives back the first 64 bits of the buffer. *)
Theorem parse_fields_concat (buffer : Buffer.t) :
  64 <= Buffer.length buffer ->
  exists hd, parse buffer = Ok hd /\
    fold_left (fun acc f => Buffer.concat acc (fd_value f)) (hd_fields hd) (Buffer.mk 0 0) =
    Buffer.sub buffer 0 64.
Proof.
  intros H. exists (parsed_header buffer). split; [apply parse_long; exact H|].
  cbn [parsed_header hd_fields fold_left fd_value]. rewrite concat_empty.
  rewrite !concat_sub_adjacent by lia. reflexivity.
Qed.

Section ChecksumProperties.

Variables IPv6_HEADER_ID IPV4_HEADER_ID : string.
Variables IPv6_SRC_ADDRESS IPv4_SRC_ADDRESS : string.

Local Abbreviation inputs :=
  (checksum_inputs IPv6_HEADER_ID IPV4_HEADER_ID IPv6_SRC_ADDRESS IPv4_SRC_ADDRESS).
Local Abbreviation compute_checksum :=
  (_compute_checksum IPv6_HEADER_ID IPV4_HEADER_ID IPv6_SRC_ADDRESS IPv4_SRC_ADDRESS).

Lemma compute_checksum_value (packet : Buffer.t) (field_cursor : Z)
    (df : list (string * Buffer.t)) (pos : Z) (udp ph : Buffer.t) :
  inputs packet field_cursor df pos = Ok (udp, ph) ->
  Buffer.length ph mod 16 = 0 ->
  compute_checksum packet field_cursor df pos =
    Ok (Buffer.mk (zero_escape (checksum_spec ph udp)) 16).
Proof.
  intros H Hm. pose proof (checksum_inputs_udp_length _ _ _ _ _ _ _ _ _ _ H) as Hu.
  unfold _compute_checksum. rewrite H. cbn [bind].
  destruct (chunks16_exact ph Hm) as [pcs [Hp [Hpv Hpb]]]. rewrite Hp. cbn [bind].
  destruct (chunks16_padded udp Hu) as [ucs [Hu' [Huv Hub]]]. rewrite Hu'. cbn [bind].
  destruct (fold_add_chunk pcs 0 Hpb ltac:(lia)) as [Ep Bp].
  destruct (fold_add_chunk ucs 0 Hub ltac:(lia)) as [Eu Bu].
  set (P := fold_left add_chunk pcs 0) in *. set (U := fold_left add_chunk ucs 0) in *.
  destruct (add_chunk_eac P (Buffer.mk U 16) Bp Bu) as [Ec Bc]. cbn [Buffer.value] in Ec, Bc.
  change (Z.land (P + U + Z.shiftr (P + U) 16) 65535) with (add_chunk P (Buffer.mk U 16)).
  rewrite Ec, complement16 by exact Bc.
  assert (Hspec : checksum_spec ph udp = Z.ones 16 - end_around_carry (P + U)).
  { unfold checksum_spec, ones_complement_sum. rewrite <- Hpv, <- Huv, <- Ep, <- Eu. reflexivity. }
  rewrite <- Hspec. fold (zero_escape (checksum_spec ph udp)).
  assert (Hz : 0 <= zero_escape (checksum_spec ph udp) < 2 ^ 16).
  { unfold zero_escape. rewrite Hspec. change (Z.ones 16) with 65535.
    change (2 ^ 16) with 65536. destruct (_ =? 0); lia. }
  destruct (to_bytes_buffer16 (zero_escape (checksum_spec ph udp)) 2) as [c [Hc Hb]];
    [lia | cbn; cbn in Hz; lia |].
  rewrite Hc. cbn [bind]. rewrite Hb, Z.mod_small by lia. reflexivity.
Qed.

Lemma compute_checksum_ok_inv (packet : Buffer.t) (field_cursor : Z)
    (df : list (string * Buffer.t)) (pos : Z) (cb : Buffer.t) :
  compute_checksum packet field_cursor df pos = Ok cb ->
  exists udp ph, inputs packet field_cursor df pos = Ok (udp, ph) /\
    Buffer.length ph mod 16 = 0 /\ cb = Buffer.mk (zero_escape (checksum_spec ph udp)) 16.
Proof.
  intros H. pose proof H as H0. unfold _compute_checksum in H.
  apply bind_ok in H. destruct H as [[udp ph] [Hi H]].
  apply bind_ok in H. destruct H as [pcs [Hp _]].
  apply chunks_exact_mod in Hp.
  exists udp, ph. split; [exact Hi|]. split; [exact Hp|].
  rewrite (compute_checksum_value _ _ _ _ _ _ Hi Hp) in H0. injection H0 as <-. reflexivity.
Qed.

Lemma checksum_inputs_same_suffix (p p' : Buffer.t) (field_cursor : Z)
    (df : list (string * Buffer.t)) (pos : Z) (udp udp' ph : Buffer.t) :
  inputs p field_cursor df pos = Ok (udp, ph) ->
  Buffer.slice_from p' (field_cursor - 48) = Ok udp' ->
  Buffer.length udp' = Buffer.length udp ->
  inputs p' field_cursor df pos = Ok (udp', ph).
Proof.
  unfold checksum_inputs. intros H Hs Hl.
  apply bind_ok in H. destruct H as [last [Hlast H]].
  apply bind_ok in H. destruct H as [u [Hu H]].
  apply bind_ok in H. destruct H as [ph0 [Hph H]]. injection H as <- <-.
  rewrite Hlast, Hs. cbn [bind]. rewrite Hl, Hph. reflexivity.
Qed.

Lemma well_formed_fields (df : list (string * Buffer.t)) (i : Z) (b : Buffer.t) :
  Forall (fun f => well_formed (snd f) = true) df ->
  py_index (map snd df) i = Ok b -> well_formed b = true.
Proof.
  intros Hall Hi. apply py_index_in in Hi. apply in_map_iff in Hi.
  destruct Hi as [f [<- Hf]]. rewrite Forall_forall in Hall. exact (Hall f Hf).
Qed.

Lemma well_formed_length (b : Buffer.t) : well_formed b = true -> 0 <= Buffer.length b.
Proof.
  unfold well_formed. rewrite !andb_true_iff, !Z.leb_le. intros [[H _] _]. exact H.
Qed.

(** the pseudo-header splits into the addresses, the word 17 and the length word *)
Lemma pseudo_header_words (X : Buffer.t) (L : Z) :
  Buffer.length X mod 16 = 0 -> 0 <= Buffer.length X -> 0 <= L < 2 ^ 16 ->
  sum_words (words16 (Buffer.concat (Buffer.concat X (Buffer.mk 17 16)) (Buffer.mk L 16))) =
  sum_words (words16 X) + 17 + L.
Proof.
  intros Hm Hx HL.
  assert (Hm' : Buffer.length (Buffer.concat X (Buffer.mk 17 16)) mod 16 = 0)
    by (cbn [Buffer.concat Buffer.length]; rewrite Z.add_mod, Hm by lia; reflexivity).
  rewrite words16_concat; [| exact Hm' | cbn; lia |
    unfold well_formed; cbn; rewrite !andb_true_iff, !Z.leb_le, Z.ltb_lt; lia].
  rewrite words16_concat; [| exact Hm | exact Hx | reflexivity].
  rewrite words16_word by lia. rewrite words16_word by (cbn; lia).
  rewrite !sum_words_app. cbn [sum_words fold_right]. lia.
Qed.

Lemma pseudo_header_sum_pos (packet : Buffer.t) (field_cursor : Z)
    (df : list (string * Buffer.t)) (pos : Z) (udp ph : Buffer.t) :
  Forall (fun f => well_formed (snd f) = true) df ->
  inputs packet field_cursor df pos = Ok (udp, ph) ->
  Buffer.length ph mod 16 = 0 ->
  17 <= sum_words (words16 ph).
Proof.
  intros Hall H Hm. apply checksum_inputs_ok in H.
  destruct H as [last [i [src [dst [_ [_ [_ [Hs [Hd Hb]]]]]]]]].
  pose proof (well_formed_concat _ _ (well_formed_fields _ _ _ Hall Hs) (well_formed_fields _ _ _ Hall Hd)) as Hw.
  set (X := Buffer.concat src dst) in *.
  assert (HX : Buffer.length X mod 16 = 0 /\ 0 <= Buffer.length X).
  { split; [|apply well_formed_length; exact Hw].
    destruct Hb as [[_ [_ [_ ->]]] | [_ [_ [_ [_ ->]]]]]; cbn [Buffer.concat Buffer.length] in Hm;
      (replace (Buffer.length X + 16 + 16) with (Buffer.length X + 2 * 16) in Hm by lia);
      rewrite Z.mod_add in Hm by lia; exact Hm. }
  pose proof (sum_words_nonneg _ (words16_range X)).
  destruct Hb as [[_ [_ [HL ->]]] | [_ [_ [_ [HL ->]]]]];
    rewrite pseudo_header_words by (try lia; pose proof (Z.mod_pos_bound (octets_of_bits (Buffer.length udp)) (2 ^ 16) ltac:(lia)); lia);
    pose proof (Z.mod_pos_bound (octets_of_bits (Buffer.length udp)) (2 ^ 16) ltac:(lia)); lia.
Qed.

(** The last 16 bits of the pseudo-header are exactly the buffer
    [_compute_length] produces for the UDP Length field, 16 bits before the
    checksum field. *)
Theorem pseudo_header_udp_length (packet : Buffer.t) (field_cursor : Z)
    (df : list (string * Buffer.t)) (pos : Z) (udp ph length_buffer : Buffer.t) :
  inputs packet field_cursor df pos = Ok (udp, ph) ->
  _compute_length packet (field_cursor - 16) = Ok length_buffer ->
  Buffer.sub ph (Buffer.length ph - 16) (Buffer.length ph) = length_buffer.
Proof.
  intros H Hl. apply checksum_inputs_ok in H.
  destruct H as [last [i [src [dst [_ [Hs [_ [_ [_ Hb]]]]]]]]].
  unfold _compute_length in Hl. replace (field_cursor - 16 - 32) with (field_cursor - 48) in Hl by lia.
  rewrite Hs in Hl. cbn [bind] in Hl.
  apply bind_ok in Hl. destruct Hl as [content [Hc Hl]]. injection Hl as <-.
  apply to_bytes_ok in Hc. destruct Hc as [-> Hr]. change (2 ^ (8 * Z.of_nat 2)) with (2 ^ 16) in Hr.
  rewrite bytes_value_bytes_be. change (Z.pow_pos 2 16) with (2 ^ 16). change (8 * Z.of_nat 2) with 16.
  rewrite !(Z.mod_small _ (2 ^ 16)) by (try rewrite Z.mod_small; exact Hr).
  set (L := octets_of_bits (Buffer.length udp)) in *.
  assert (Hph : ph = Buffer.concat (Buffer.concat (Buffer.concat src dst) (Buffer.mk 17 16)) (Buffer.mk L 16)).
  { destruct Hb as [[_ [_ [_ ->]]] | [_ [_ [_ [_ ->]]]]]; [|reflexivity].
    rewrite Z.mod_small by exact Hr. reflexivity. }
  subst ph. set (Y := Buffer.concat (Buffer.concat src dst) (Buffer.mk 17 16)).
  unfold Buffer.sub, Buffer.concat. cbn [Buffer.value Buffer.length].
  replace (Buffer.length Y + 16 - (Buffer.length Y + 16)) with 0 by lia.
  replace (Buffer.length Y + 16 - (Buffer.length Y + 16 - 16)) with 16 by lia.
  rewrite Z.pow_0_r, Z.div_1_r, Z.add_comm, Z.mod_add, Z.mod_small by (lia || apply Z.pow_nonzero; lia).
  reflexivity.
Qed.

(** For IPv6 and a UDP datagram shorter than 65536 octets, the checksum of
    the code's compact pseudo-header equals the one's complement checksum over
    the RFC 8200 pseudo-header [source ∥ destination ∥ length(32) ∥ zero(24) ∥
    17(8)]. *)
Theorem compute_checksum_ipv6_rfc8200 (packet : Buffer.t) (field_cursor : Z)
    (df : list (string * Buffer.t)) (pos : Z) (udp ph : Buffer.t) (last : string) (cb : Buffer.t) :
  Forall (fun f => well_formed (snd f) = true) df ->
  inputs packet field_cursor df pos = Ok (udp, ph) ->
  py_index (map fst df) (pos - 4) = Ok last ->
  contains IPv6_HEADER_ID last = true ->
  octets_of_bits (Buffer.length udp) < 2 ^ 16 ->
  compute_checksum packet field_cursor df pos = Ok cb ->
  exists i src dst,
    py_index (map fst df) i = Ok IPv6_SRC_ADDRESS /\
    py_index (map snd df) i = Ok src /\ py_index (map snd df) (i + 1) = Ok dst /\
    cb = Buffer.mk (zero_escape (checksum_spec
           (rfc8200_pseudo_header src dst (octets_of_bits (Buffer.length udp))) udp)) 16.
Proof.
  intros Hall H Hlast E6 HL Hc.
  apply compute_checksum_ok_inv in Hc. destruct Hc as [udp' [ph' [H' [Hm ->]]]].
  rewrite H in H'. injection H' as <- <-.
  apply checksum_inputs_ok in H.
  destruct H as [last' [i [src [dst [Hl' [_ [_ [Hs [Hd Hb]]]]]]]]].
  rewrite Hlast in Hl'. injection Hl' as <-.
  destruct Hb as [[_ [Hi [HL32 Hph]]] | [E6' _]]; [|congruence].
  exists i, src, dst. split; [exact Hi|]. split; [exact Hs|]. split; [exact Hd|].
  set (L := octets_of_bits (Buffer.length udp)) in *.
  rewrite (Z.mod_small L) in Hph by lia.
  pose proof (well_formed_concat _ _ (well_formed_fields _ _ _ Hall Hs) (well_formed_fields _ _ _ Hall Hd)) as Hw.
  pose proof (well_formed_length _ Hw) as Hx.
  set (X := Buffer.concat src dst) in *.
  assert (HX : Buffer.length X mod 16 = 0).
  { subst ph. cbn [Buffer.concat Buffer.length] in Hm.
    replace (Buffer.length X + 16 + 16) with (Buffer.length X + 2 * 16) in Hm by lia.
    rewrite Z.mod_add in Hm by lia. exact Hm. }
  f_equal. f_equal. rewrite !checksum_spec_sum. f_equal. f_equal. f_equal.
  subst ph. rewrite pseudo_header_words by lia.
  unfold rfc8200_pseudo_header. fold X.
  rewrite concat_assoc by (cbn; lia).
  change (Buffer.concat (Buffer.mk 0 24) (Buffer.mk 17 8)) with (Buffer.mk 17 32).
  assert (Hm32 : Buffer.length (Buffer.concat X (Buffer.mk L 32)) mod 16 = 0)
    by (cbn [Buffer.concat Buffer.length]; rewrite Z.add_mod, HX by lia; reflexivity).
  rewrite words16_concat; [| exact Hm32 | cbn [Buffer.concat Buffer.length]; lia | reflexivity].
  rewrite words16_concat; [| exact HX | exact Hx |
    unfold well_formed; cbn; rewrite !andb_true_iff, !Z.leb_le, Z.ltb_lt; lia].
  rewrite words16_dword by lia. rewrite words16_dword by (cbn; lia).
  rewrite !sum_words_app. cbn [sum_words fold_right].
  rewrite (Z.div_small L), (Z.mod_small L) by lia.
  change (17 / 2 ^ 16) with 0. change (17 mod 2 ^ 16) with 17. lia.
Qed.

(** Round trip: computing the checksum of a packet whose checksum field is
    zero, writing it into that field and computing again gives [0xFFFF]: the
    one's complement sum over the filled datagram and pseudo-header is all
    ones. *)
Theorem compute_checksum_fill_verifies (before after : Buffer.t)
    (df : list (string * Buffer.t)) (pos : Z) (cb : Buffer.t) :
  48 <= Buffer.length before -> well_formed after = true ->
  compute_checksum (Buffer.concat (Buffer.concat before (Buffer.mk 0 16)) after)
    (Buffer.length before) df pos = Ok cb ->
  compute_checksum (Buffer.concat (Buffer.concat before cb) after)
    (Buffer.length before) df pos = Ok (Buffer.mk 0xffff 16).
Proof.
  intros Hb Ha Hc.
  apply compute_checksum_ok_inv in Hc. destruct Hc as [udp [ph [H [Hm ->]]]].
  set (c := zero_escape (checksum_spec ph udp)).
  assert (Hcr : 0 <= c < 2 ^ 16).
  { unfold c, zero_escape. rewrite checksum_spec_sum.
    pose proof (ones_rep_range (sum_words (words16 ph) + sum_words (words16 (pad_even_octets udp)))).
    change (2 ^ 16) with 65536. destruct (_ =? 0); lia. }
  set (s := Buffer.length before - 48).
  set (h := Buffer.sub before s (Buffer.length before)).
  assert (Hh : Buffer.length h mod 16 = 0 /\ 0 <= Buffer.length h)
    by (unfold h, Buffer.sub; cbn [Buffer.length]; unfold s;
        replace (Buffer.length before - (Buffer.length before - 48)) with 48 by lia; split; [reflexivity | lia]).
  assert (Hu0 := slice_around_word before after 0 s ltac:(unfold s; lia) ltac:(lia) Ha).
  assert (Hu1 := slice_around_word before after c s ltac:(unfold s; lia) Hcr Ha).
  fold h in Hu0, Hu1.
  pose proof H as H0. apply checksum_inputs_ok in H0.
  destruct H0 as [_ [_ [_ [_ [_ [Hs _]]]]]].
  fold s in Hs. rewrite Hu0 in Hs. injection Hs as <-.
  rewrite (compute_checksum_value _ _ _ _ _ ph
             (checksum_inputs_same_suffix _ _ _ _ _ _ _ _ H Hu1 eq_refl) Hm).
  f_equal. f_equal.
  rewrite checksum_spec_sum, sum_around_word by (tauto || assumption).
  unfold c. rewrite checksum_spec_sum, sum_around_word by (tauto || lia || assumption).
  pose proof (sum_words_nonneg _ (words16_range ph)).
  pose proof (sum_words_nonneg _ (words16_range h)).
  pose proof (sum_words_nonneg _ (words16_range (pad_even_octets after))).
  set (T := sum_words (words16 ph) + (sum_words (words16 h) + 0 + sum_words (words16 (pad_even_octets after)))).
  replace (sum_words (words16 ph) + (sum_words (words16 h) +
             zero_escape (0xffff - ones_rep T) + sum_words (words16 (pad_even_octets after))))
    with (T + zero_escape (0xffff - ones_rep T)) by (unfold T; lia).
  apply fill_arith. unfold T. lia.
Qed.


(** Changing one 16-bit-aligned word of the UDP datagram changes the
    checksum, unless the change swaps [0x0000] and [0xFFFF]. *)
Theorem compute_checksum_detects_word_change (before after : Buffer.t) (w w' field_cursor : Z)
    (df : list (string * Buffer.t)) (pos : Z) (cb cb' : Buffer.t) :
  Forall (fun f => well_formed (snd f) = true) df ->
  0 <= field_cursor - 48 <= Buffer.length before ->
  (Buffer.length before - (field_cursor - 48)) mod 16 = 0 ->
  well_formed after = true ->
  0 <= w < 2 ^ 16 -> 0 <= w' < 2 ^ 16 -> w <> w' ->
  ~ (w = 0 /\ w' = 0xffff) -> ~ (w = 0xffff /\ w' = 0) ->
  compute_checksum (Buffer.concat (Buffer.concat before (Buffer.mk w 16)) after) field_cursor df pos = Ok cb ->
  compute_checksum (Buffer.concat (Buffer.concat before (Buffer.mk w' 16)) after) field_cursor df pos = Ok cb' ->
  cb <> cb'.
Proof.
  intros Hall Hs Hm16 Ha Hw Hw' Hne H1 H2 Hc Hc'.
  apply compute_checksum_ok_inv in Hc. destruct Hc as [udp [ph [H [Hm ->]]]].
  apply compute_checksum_ok_inv in Hc'. destruct Hc' as [udp' [ph' [H' [_ ->]]]].
  set (h := Buffer.sub before (field_cursor - 48) (Buffer.length before)).
  assert (Hh : Buffer.length h mod 16 = 0 /\ 0 <= Buffer.length h)
    by (unfold h, Buffer.sub; cbn [Buffer.length]; split; [exact Hm16 | lia]).
  assert (Hu := slice_around_word before after w (field_cursor - 48) Hs Hw Ha).
  assert (Hu' := slice_around_word before after w' (field_cursor - 48) Hs Hw' Ha).
  fold h in Hu, Hu'.
  pose proof H as H0. apply checksum_inputs_ok in H0. destruct H0 as [_ [_ [_ [_ [_ [Hs0 _]]]]]].
  rewrite Hu in Hs0. injection Hs0 as <-.
  pose proof (checksum_inputs_same_suffix _ _ _ _ _ _ _ _ H Hu' eq_refl) as H''.
  rewrite H' in H''. injection H'' as -> ->.
  pose proof (pseudo_header_sum_pos _ _ _ _ _ _ Hall H Hm) as Hp.
  rewrite !checksum_spec_sum, !sum_around_word by (tauto || assumption).
  pose proof (sum_words_nonneg _ (words16_range h)).
  pose proof (sum_words_nonneg _ (words16_range (pad_even_octets after))).
  intros Heq. injection Heq as Heq. revert Heq.
  replace (sum_words (words16 ph) + (sum_words (words16 h) + w + sum_words (words16 (pad_even_octets after))))
    with ((sum_words (words16 ph) + sum_words (words16 h) + sum_words (words16 (pad_even_octets after))) + w) by lia.
  replace (sum_words (words16 ph) + (sum_words (words16 h) + w' + sum_words (words16 (pad_even_octets after))))
    with ((sum_words (words16 ph) + sum_words (words16 h) + sum_words (words16 (pad_even_octets after))) + w') by lia.
  apply detect_arith; lia || assumption.
Qed.

(** The backward scan for the source address stops before index 0: when
    no field at indices [1 .. rule_field_position - 4] has the chosen
    version's source-address id, [_compute_checksum] raises StopIteration,
    even when the source address is the first decompressed field. *)
Theorem compute_checksum_source_not_found (packet : Buffer.t) (field_cursor : Z)
    (df : list (string * Buffer.t)) (pos : Z) (last : string) :
  py_index (map fst df) (pos - 4) = Ok last -> 0 <= pos - 4 ->
  0 <= field_cursor - 48 <= Buffer.length packet ->
  (contains IPv6_HEADER_ID last = true /\
   ~ In IPv6_SRC_ADDRESS (skipn 1 (firstn (Z.to_nat (pos - 3)) (map fst df)))) \/
  (contains IPv6_HEADER_ID last = false /\ contains IPV4_HEADER_ID last = true /\
   ~ In IPv4_SRC_ADDRESS (skipn 1 (firstn (Z.to_nat (pos - 3)) (map fst df)))) ->
  compute_checksum packet field_cursor df pos = Err StopIteration.
Proof.
  intros Hl Hp Hc Hcase.
  pose proof Hl as Hr. apply py_index_ok in Hr. destruct Hr as [Hr _].
  unfold _compute_checksum, checksum_inputs. rewrite Hl. cbn [bind].
  unfold Buffer.slice_from. rewrite slice_in_bounds by lia. cbn [bind].
  unfold build_pseudo_header. rewrite rev_slice_nonneg by lia.
  replace (Z.to_nat (pos - 4 + 1)) with (Z.to_nat (pos - 3)) by (f_equal; lia).
  destruct Hcase as [[E6 Hn] | [E6 [E4 Hn]]]; rewrite E6; [|rewrite E4];
    rewrite next_offset_not_in; [reflexivity | rewrite <- in_rev; exact Hn
                                 | reflexivity | rewrite <- in_rev; exact Hn].
Qed.

(** A rule position whose [rule_field_position - 4] is not a valid Python
    index of [decompressed_fields] raises IndexError. *)
Theorem compute_checksum_position_out_of_range (packet : Buffer.t) (field_cursor : Z)
    (df : list (string * Buffer.t)) (pos : Z) :
  pos - 4 < - Z.of_nat (List.length df) \/ Z.of_nat (List.length df) <= pos - 4 ->
  compute_checksum packet field_cursor df pos = Err IndexError.
Proof.
  intros Hp. unfold _compute_checksum, checksum_inputs.
  replace (py_index (map fst df) (pos - 4)) with (@Err string IndexError); [reflexivity|].
  unfold py_index. rewrite length_map.
  replace ((0 <=? (if pos - 4 <? 0 then pos - 4 + Z.of_nat (List.length df) else pos - 4)) &&
           ((if pos - 4 <? 0 then pos - 4 + Z.of_nat (List.length df) else pos - 4) <?
            Z.of_nat (List.length df)))%bool with false; [reflexivity|].
  symmetry. apply andb_false_iff.
  destruct (pos - 4 <? 0) eqn:E; [apply Z.ltb_lt in E | apply Z.ltb_ge in E].
  - left. apply Z.leb_gt. lia.
  - right. apply Z.ltb_ge. lia.
Qed.

(** The checksum reads the packet only from [field_cursor - 48] on: two
    packets with the same bits from there give the same result, whatever
    precedes the UDP header. *)
Theorem compute_checksum_reads_udp_suffix_only (p1 p2 : Buffer.t) (c1 c2 : Z)
    (df : list (string * Buffer.t)) (pos : Z) :
  Buffer.slice_from p1 (c1 - 48) = Buffer.slice_from p2 (c2 - 48) ->
  compute_checksum p1 c1 df pos = compute_checksum p2 c2 df pos.
Proof.
  intros H. unfold _compute_checksum, checksum_inputs. rewrite H. reflexivity.
Qed.

End ChecksumProperties.

(** ** Witnesses of the further properties *)

Lemma parse_fields_concat_witness :
  64 <= Buffer.length (Buffer.mk 0x0035d10000680000ff 72) /\
  exists hd, parse (Buffer.mk 0x0035d10000680000ff 72) = Ok hd /\
    fold_left (fun acc f => Buffer.concat acc (fd_value f)) (hd_fields hd) (Buffer.mk 0 0) =
    Buffer.sub (Buffer.mk 0x0035d10000680000ff 72) 0 64.
Proof.
  split; [cbn; lia|]. apply parse_fields_concat. cbn. lia.
Defined.

Lemma pseudo_header_udp_length_witness :
  checksum_inputs_ids fixture_packet 368 fixture_fields 11 = Ok (fixture_udp, fixture_pseudo_header) /\
  _compute_length fixture_packet (368 - 16) = Ok (Buffer.mk 104 16) /\
  Buffer.sub fixture_pseudo_header (Buffer.length fixture_pseudo_header - 16)
    (Buffer.length fixture_pseudo_header) = Buffer.mk 104 16.
Proof.
  assert (H : checksum_inputs_ids fixture_packet 368 fixture_fields 11 =
              Ok (fixture_udp, fixture_pseudo_header)) by (vm_compute; reflexivity).
  assert (Hl : _compute_length fixture_packet (368 - 16) = Ok (Buffer.mk 104 16))
    by (vm_compute; reflexivity).
  split; [exact H|]. split; [exact Hl|].
  exact (pseudo_header_udp_length Ids.IPv6_HEADER_ID Ids.IPV4_HEADER_ID Ids.IPv6_SRC_ADDRESS Ids.IPv4_SRC_ADDRESS fixture_packet 368 fixture_fields 11 _ _ _ H Hl).
Defined.

Lemma fixture_fields_well_formed :
  Forall (fun f => well_formed (snd f) = true) fixture_fields.
Proof. repeat (apply Forall_cons; [vm_compute; reflexivity|]). apply Forall_nil. Qed.

Lemma compute_checksum_ipv6_rfc8200_witness :
  Forall (fun f => well_formed (snd f) = true) fixture_fields /\
  checksum_inputs_ids fixture_packet 368 fixture_fields 11 = Ok (fixture_udp, fixture_pseudo_header) /\
  py_index (map fst fixture_fields) (11 - 4) = Ok "IPv6:Destination Address" /\
  contains Ids.IPv6_HEADER_ID "IPv6:Destination Address" = true /\
  octets_of_bits (Buffer.length fixture_udp) < 2 ^ 16 /\
  compute_checksum_ids fixture_packet 368 fixture_fields 11 = Ok (Buffer.mk 0x0ced 16) /\
  exists i src dst,
    py_index (map fst fixture_fields) i = Ok Ids.IPv6_SRC_ADDRESS /\
    py_index (map snd fixture_fields) i = Ok src /\ py_index (map snd fixture_fields) (i + 1) = Ok dst /\
    Buffer.mk 0x0ced 16 = Buffer.mk (zero_escape (checksum_spec
      (rfc8200_pseudo_header src dst (octets_of_bits (Buffer.length fixture_udp))) fixture_udp)) 16.
Proof.
  assert (H : checksum_inputs_ids fixture_packet 368 fixture_fields 11 =
              Ok (fixture_udp, fixture_pseudo_header)) by (vm_compute; reflexivity).
  assert (Hl : py_index (map fst fixture_fields) (11 - 4) = Ok "IPv6:Destination Address")
    by (vm_compute; reflexivity).
  assert (E6 : contains Ids.IPv6_HEADER_ID "IPv6:Destination Address" = true)
    by (vm_compute; reflexivity).
  assert (HL : octets_of_bits (Buffer.length fixture_udp) < 2 ^ 16)
    by (apply Z.ltb_lt; vm_compute; reflexivity).
  assert (Hc : compute_checksum_ids fixture_packet 368 fixture_fields 11 = Ok (Buffer.mk 0x0ced 16))
    by (vm_compute; reflexivity).
  split; [exact fixture_fields_well_formed|]. split; [exact H|]. split; [exact Hl|].
  split; [exact E6|]. split; [exact HL|]. split; [exact Hc|].
  exact (compute_checksum_ipv6_rfc8200 Ids.IPv6_HEADER_ID Ids.IPV4_HEADER_ID Ids.IPv6_SRC_ADDRESS Ids.IPv4_SRC_ADDRESS fixture_packet 368 fixture_fields 11 _ _ _ _
           fixture_fields_well_formed H Hl E6 HL Hc).
Defined.

Lemma compute_checksum_fill_verifies_witness :
  48 <= Buffer.length fixture_before_checksum /\
  well_formed fixture_after_checksum = true /\
  compute_checksum_ids
    (Buffer.concat (Buffer.concat fixture_before_checksum (Buffer.mk 0 16)) fixture_after_checksum)
    (Buffer.length fixture_before_checksum) fixture_fields 11 = Ok (Buffer.mk 0x690e 16) /\
  compute_checksum_ids
    (Buffer.concat (Buffer.concat fixture_before_checksum (Buffer.mk 0x690e 16)) fixture_after_checksum)
    (Buffer.length fixture_before_checksum) fixture_fields 11 = Ok (Buffer.mk 0xffff 16).
Proof.
  assert (Hb : 48 <= Buffer.length fixture_before_checksum) by (apply Z.leb_le; vm_compute; reflexivity).
  assert (Ha : well_formed fixture_after_checksum = true) by (vm_compute; reflexivity).
  assert (Hc : compute_checksum_ids
    (Buffer.concat (Buffer.concat fixture_before_checksum (Buffer.mk 0 16)) fixture_after_checksum)
    (Buffer.length fixture_before_checksum) fixture_fields 11 = Ok (Buffer.mk 0x690e 16))
    by (vm_compute; reflexivity).
  split; [exact Hb|]. split; [exact Ha|]. split; [exact Hc|].
  exact (compute_checksum_fill_verifies Ids.IPv6_HEADER_ID Ids.IPV4_HEADER_ID Ids.IPv6_SRC_ADDRESS Ids.IPv4_SRC_ADDRESS fixture_before_checksum fixture_after_checksum
           fixture_fields 11 _ Hb Ha Hc).
Defined.

Lemma compute_checksum_detects_word_change_witness :
  Forall (fun f => well_formed (snd f) = true) fixture_fields /\
  0 <= 368 - 48 <= Buffer.length fixture_before_checksum /\
  (Buffer.length fixture_before_checksum - (368 - 48)) mod 16 = 0 /\
  well_formed fixture_after_checksum = true /\
  compute_checksum_ids
    (Buffer.concat (Buffer.concat fixture_before_checksum (Buffer.mk 0x5c21 16)) fixture_after_checksum)
    368 fixture_fields 11 = Ok (Buffer.mk 0x0ced 16) /\
  compute_checksum_ids
    (Buffer.concat (Buffer.concat fixture_before_checksum (Buffer.mk 0 16)) fixture_after_checksum)
    368 fixture_fields 11 = Ok (Buffer.mk 0x690e 16) /\
  Buffer.mk 0x0ced 16 <> Buffer.mk 0x690e 16.
Proof.
  assert (Hs : 0 <= 368 - 48 <= Buffer.length fixture_before_checksum)
    by (split; apply Z.leb_le; vm_compute; reflexivity).
  assert (Hm : (Buffer.length fixture_before_checksum - (368 - 48)) mod 16 = 0)
    by (vm_compute; reflexivity).
  assert (Ha : well_formed fixture_after_checksum = true) by (vm_compute; reflexivity).
  assert (Hc : compute_checksum_ids
    (Buffer.concat (Buffer.concat fixture_before_checksum (Buffer.mk 0x5c21 16)) fixture_after_checksum)
    368 fixture_fields 11 = Ok (Buffer.mk 0x0ced 16)) by (vm_compute; reflexivity).
  assert (Hc' : compute_checksum_ids
    (Buffer.concat (Buffer.concat fixture_before_checksum (Buffer.mk 0 16)) fixture_after_checksum)
    368 fixture_fields 11 = Ok (Buffer.mk 0x690e 16)) by (vm_compute; reflexivity).
  split; [exact fixture_fields_well_formed|]. split; [exact Hs|]. split; [exact Hm|].
  split; [exact Ha|]. split; [exact Hc|]. split; [exact Hc'|].
  apply (compute_checksum_detects_word_change Ids.IPv6_HEADER_ID Ids.IPV4_HEADER_ID Ids.IPv6_SRC_ADDRESS Ids.IPv4_SRC_ADDRESS fixture_before_checksum fixture_after_checksum
           0x5c21 0 368 fixture_fields 11 _ _ fixture_fields_well_formed Hs Hm Ha);
    [lia | lia | lia | lia | lia | exact Hc | exact Hc'].
Defined.

Lemma compute_checksum_source_not_found_witness :
  py_index (map fst leading_source_fields) (5 - 4) = Ok "IPv6:Destination Address" /\
  0 <= 5 - 4 /\ 0 <= 368 - 48 <= Buffer.length fixture_packet /\
  contains Ids.IPv6_HEADER_ID "IPv6:Destination Address" = true /\
  ~ In Ids.IPv6_SRC_ADDRESS (skipn 1 (firstn (Z.to_nat (5 - 3)) (map fst leading_source_fields))) /\
  compute_checksum_ids fixture_packet 368 leading_source_fields 5 = Err StopIteration.
Proof.
  assert (Hl : py_index (map fst leading_source_fields) (5 - 4) = Ok "IPv6:Destination Address")
    by (vm_compute; reflexivity).
  assert (Hc : 0 <= 368 - 48 <= Buffer.length fixture_packet)
    by (split; apply Z.leb_le; vm_compute; reflexivity).
  assert (E6 : contains Ids.IPv6_HEADER_ID "IPv6:Destination Address" = true)
    by (vm_compute; reflexivity).
  assert (Hn : ~ In Ids.IPv6_SRC_ADDRESS
                 (skipn 1 (firstn (Z.to_nat (5 - 3)) (map fst leading_source_fields)))).
  { intros Hin. vm_compute in Hin. destruct Hin as [Hin | Hin]; [discriminate Hin | exact Hin]. }
  split; [exact Hl|]. split; [lia|]. split; [exact Hc|]. split; [exact E6|]. split; [exact Hn|].
  apply (compute_checksum_source_not_found Ids.IPv6_HEADER_ID Ids.IPV4_HEADER_ID Ids.IPv6_SRC_ADDRESS Ids.IPv4_SRC_ADDRESS fixture_packet 368 leading_source_fields 5 _ Hl);
    [lia | exact Hc | left; split; [exact E6 | exact Hn]].
Defined.

Lemma compute_checksum_position_out_of_range_witness :
  Z.of_nat (List.length fixture_fields) <= 20 - 4 /\
  compute_checksum_ids fixture_packet 368 fixture_fields 20 = Err IndexError.
Proof.
  assert (H : Z.of_nat (List.length fixture_fields) <= 20 - 4) by (apply Z.leb_le; vm_compute; reflexivity).
  split; [exact H|].
  exact (compute_checksum_position_out_of_range Ids.IPv6_HEADER_ID Ids.IPV4_HEADER_ID Ids.IPv6_SRC_ADDRESS Ids.IPv4_SRC_ADDRESS fixture_packet 368 fixture_fields 20 (or_intror H)).
Defined.

Lemma compute_checksum_reads_udp_suffix_only_witness :
  Buffer.slice_from fixture_packet (368 - 48) =
    Buffer.slice_from (Buffer.concat (Buffer.mk 0 40) fixture_udp) (88 - 48) /\
  compute_checksum_ids fixture_packet 368 fixture_fields 11 =
    compute_checksum_ids (Buffer.concat (Buffer.mk 0 40) fixture_udp) 88 fixture_fields 11.
Proof.
  assert (H : Buffer.slice_from fixture_packet (368 - 48) =
              Buffer.slice_from (Buffer.concat (Buffer.mk 0 40) fixture_udp) (88 - 48))
    by (vm_compute; reflexivity).
  split; [exact H|].
  exact (compute_checksum_reads_udp_suffix_only Ids.IPv6_HEADER_ID Ids.IPV4_HEADER_ID Ids.IPv6_SRC_ADDRESS Ids.IPv4_SRC_ADDRESS fixture_packet
           (Buffer.concat (Buffer.mk 0 40) fixture_udp) 368 88 fixture_fields 11 H).
Defined.
